(** * send_emails.py: the resumable batch runner and its checkpoint store

    A shallow embedding of [scripts/send_emails.py].  The script is a
    sequential orchestration of three external services (a spreadsheet, a
    text generator, an SMTP server) around one JSON status file.  The
    embedding keeps that shape:

    - the external services are oracles collected in a record
      [environment]; what they answer is not under the script's control, so
      every theorem quantifies over them;
    - the process state is a [world]: the status file on disk, the number of
      service calls made so far and the chronological trace of observable
      actions;
    - Python code is written in a state-and-exception monad [M] in which a
      raised exception keeps the effects performed before it. *)

From Stdlib Require Import ZArith List String Bool Lia.
Import ListNotations.

#[local] Open Scope string_scope.
#[local] Open Scope list_scope.
#[local] Open Scope Z_scope.

(** ** Python values used by the script *)

(** The exception classes that can reach [main].  All of them derive from
    [Exception], so the [except Exception] clause of [main] catches each. *)
Inductive Exception : Type :=
| JSONDecodeError
| KeyError (key : string)
| IndexError
| FileNotFoundError
| TypeError
| AttributeError
| HttpError (reason : string)
| APIError (reason : string)
| SMTPException (reason : string).

Inductive result (A : Type) : Type :=
| Return (a : A)
| Raise (e : Exception).
Arguments Return {A} a.
Arguments Raise {A} e.

(** [len(l)] *)
Definition len {A : Type} (l : list A) : Z := Z.of_nat (List.length l).

(** [l[i]] on a Python list: negative indices count from the end, anything
    outside [-len(l) <= i < len(l)] raises [IndexError]. *)
Definition getitem {A : Type} (l : list A) (i : Z) : result A :=
  let j := if i <? 0 then i + len l else i in
  if (0 <=? j) && (j <? len l) then
    match nth_error l (Z.to_nat j) with
    | Some x => Return x
    | None => Raise IndexError
    end
  else Raise IndexError.

(** [range(a, b)] *)
Definition range (a b : Z) : list Z :=
  map (fun k => a + Z.of_nat k) (seq 0 (Z.to_nat (b - a))).

(** [x in l] for a list of strings *)
Definition py_in (x : string) (l : list string) : bool :=
  existsb (String.eqb x) l.

(** What [json.loads] returns for a text that parses; a number is kept as
    its literal. *)
#[local] Unset Elimination Schemes.
Inductive json : Type :=
| JNull
| JBool (b : bool)
| JNumber (literal : string)
| JString (s : string)
| JArray (items : list json)
| JObject (members : list (string * json)).
#[local] Set Elimination Schemes.

(** [d[key]] on the dict decoded from an object whose members are [d], in
    the order of the text: [json.loads] keeps the last value of a repeated
    key, and a key that does not occur raises [KeyError]. *)
Fixpoint dict_get (d : list (string * json)) (key : string) : result json :=
  match d with
  | [] => Raise (KeyError key)
  | (k, v) :: d' =>
      match dict_get d' key with
      | Return v' => Return v'
      | Raise _ => if String.eqb k key then Return v else Raise (KeyError key)
      end
  end.

(** [v[key]] for a string [key]: only a dict can be indexed with one. *)
Definition subscript (v : json) (key : string) : result json :=
  match v with
  | JObject members => dict_get members key
  | _ => Raise TypeError
  end.

(** ** Data model *)

(** The dict built at lines 47-52. *)
Record professor : Type := {
  name : string;
  research_domain : string;
  email : string;
  university : string
}.

(** The status dict, lines 61 and 176-178. *)
Record status : Type := {
  last_index : Z;
  sent_emails : list string
}.

Definition EMAILS_PER_DAY : Z := 10.
Definition STATUS_FILE : string := "data/email_status.json".

(** What [data/email_status.json] holds.  [json.load] after [json.dump] gives
    back the status dict, so a file written by the script is represented by
    the dict it decodes to; any text that [json.load] rejects is [Garbled]
    (the empty file left by [open(..., 'w')] is [Garbled ""]).  JSON text of
    another shape than the script's own is not represented. *)
Inductive file_content : Type :=
| Garbled (text : string)
| Dumped (st : status).

(** The directory [data/]: missing, or present with or without the file. *)
Inductive storage : Type :=
| NoDir
| Dir (status_file : option file_content).

(** ** Observable actions *)

Inductive message : Type :=
| No_data_found_in_the_Google_Sheet
| No_professor_data_found
| Error_reading_CV
| Email_sent_to (name email : string)
| Error_sending_email_to (name : string) (e : Exception)
| Sent_emails_Next_start_index (emails_sent next_index : Z).

Record chat_request : Type := {
  model : string;
  prompt_name : string;
  prompt_research_domain : string;
  prompt_university : string;
  prompt_cv_highlights : string
}.

(** The message of lines 118-129.  [msg['Subject']] takes whatever value
    the generator's reply held; the body is text, or [MIMEText] would have
    raised; the attachment is the bytes of the CV file. *)
Record mime_message : Type := {
  msg_From : string;
  msg_To : string;
  msg_Subject : json;
  msg_body : string;
  msg_attachment : string
}.

Inductive file_mode : Type := mode_r | mode_w.

Inductive event : Type :=
| Stdout (line : message)
| Sheets_get
| Makedirs
| Open_status_file (mode : file_mode)
| Call_generate_email_content (p : professor) (cv_content : string)
| Call_send_email (p : professor) (subject body : json)
| Smtp_send_message (msg : mime_message)
| Sleep (seconds : Z).

(** ** External services *)

(** The content of [response.choices[0].message.content]: [None], text that
    [json.loads] rejects, or text that it decodes to a value. *)
Inductive reply : Type :=
| No_content
| Not_json (text : string)
| Json (v : json).

(** What the [with smtplib.SMTP(...)] block of lines 132-135 comes to: an
    exception before the server took the message (connecting, [starttls],
    [login] or [send_message] raised), an exception on leaving the block
    after [send_message] returned (the server answered QUIT with another
    code than 221), or a normal end. *)
Inductive smtp_answer : Type :=
| Not_sent (e : Exception)
| Sent_quit_failed (e : Exception)
| Sent.

(** One run's collaborators.  The two network services answer the [n]-th
    service call of the run, so the same contact may fail once and succeed
    later.  [cv_file] holds the bytes of the CV; [utf8_decode_ignore] is
    [bytes.decode('utf-8', errors='ignore')].  [dump_progress st] lists the
    successive contents of the status file while [json.dump] writes [st]:
    each is a part of the text short of its end, which [json.load]
    rejects. *)
Record environment : Type := {
  EMAIL_USERNAME : string;
  sheet_values : result (list (list string));
  cv_file : option string;
  utf8_decode_ignore : string -> string;
  chat_completions_create : nat -> chat_request -> result reply;
  smtp_session : nat -> mime_message -> smtp_answer;
  dump_progress : status -> list string
}.

(** ** The process state and the monad *)

Record world : Type := {
  disk : storage;
  calls : nat;
  trace : list event
}.

Definition M (A : Type) : Type := world -> result A * world.

Definition ret {A : Type} (a : A) : M A := fun w => (Return a, w).

Definition raise {A : Type} (e : Exception) : M A := fun w => (Raise e, w).

Definition bind {A B : Type} (m : M A) (k : A -> M B) : M B :=
  fun w =>
    match m w with
    | (Return a, w') => k a w'
    | (Raise e, w') => (Raise e, w')
    end.

Notation "x <- m ;; k" := (bind m (fun x => k))
  (at level 61, m at next level, right associativity).
Notation "' pat <- m ;; k" := (bind m (fun x => match x with pat => k end))
  (at level 61, pat pattern, m at next level, right associativity).
Notation "m ;;; k" := (bind m (fun _ => k))
  (at level 61, right associativity).

(** [try: body except Exception as e: handler(e)] *)
Definition try_except {A : Type} (body : M A) (handler : Exception -> M A) : M A :=
  fun w =>
    match body w with
    | (Return a, w') => (Return a, w')
    | (Raise e, w') => handler e w'
    end.

Definition lift {A : Type} (r : result A) : M A := fun w => (r, w).

Definition emit (ev : event) : M unit :=
  fun w => (Return tt, {| disk := disk w; calls := calls w; trace := trace w ++ [ev] |}).

Definition print (line : message) : M unit := emit (Stdout line).

(** The number of the next service call; the counter advances. *)
Definition next_call : M nat :=
  fun w => (Return (calls w), {| disk := disk w; calls := S (calls w); trace := trace w |}).

Definition get_disk : M storage := fun w => (Return (disk w), w).

Definition set_disk (d : storage) : M unit :=
  fun w => (Return tt, {| disk := d; calls := calls w; trace := trace w |}).

(** [for x in xs: body], the loop's local variables threaded as [s]. *)
Fixpoint for_each {A S : Type} (xs : list A) (body : S -> A -> M S) (s : S) : M S :=
  match xs with
  | [] => ret s
  | x :: xs' => s' <- body s x ;; for_each xs' body s'
  end.

(** ** The script *)

(** *** get_professor_data, lines 28-54 *)

(** The dict appended at lines 47-52 for a row that passed [len(row) >= 3];
    the first three cells exist under that guard. *)
Definition professor_of_row (row : list string) : professor :=
  {| name := nth 0 row "";
     research_domain := nth 1 row "";
     email := nth 2 row "";
     university := if 3 <? len row then nth 3 row "" else "Unknown" |}.

Definition get_professor_data (env : environment) : M (list professor) :=
  emit Sheets_get ;;;
  values <- lift (sheet_values env) ;;
  match values with
  | [] => print No_data_found_in_the_Google_Sheet ;;; ret []
  | _ :: _ =>
      for_each values
        (fun professors row =>
           if 3 <=? len row
           then ret (professors ++ [professor_of_row row])
           else ret professors)
        []
  end.

(** *** load_email_status, lines 56-61 *)

(** [os.path.exists(STATUS_FILE)] *)
Definition os_path_exists_STATUS_FILE : M bool :=
  d <- get_disk ;;
  ret (match d with Dir (Some _) => true | _ => false end).

(** [with open(STATUS_FILE, 'r') as f: return json.load(f)] *)
Definition json_load_STATUS_FILE : M status :=
  emit (Open_status_file mode_r) ;;;
  d <- get_disk ;;
  match d with
  | Dir (Some (Dumped st)) => ret st
  | Dir (Some (Garbled _)) => raise JSONDecodeError
  | _ => raise FileNotFoundError
  end.

Definition default_status : status := {| last_index := 0; sent_emails := [] |}.

Definition load_email_status : M status :=
  file_exists <- os_path_exists_STATUS_FILE ;;
  if file_exists then json_load_STATUS_FILE else ret default_status.

(** *** save_email_status, lines 63-69 *)

(** [os.makedirs(os.path.dirname(STATUS_FILE), exist_ok=True)] *)
Definition os_makedirs : M unit :=
  emit Makedirs ;;;
  d <- get_disk ;;
  match d with
  | NoDir => set_disk (Dir None)
  | Dir _ => ret tt
  end.

(** [open(STATUS_FILE, 'w')]: the file is created or truncated to nothing. *)
Definition open_w_STATUS_FILE : M unit :=
  emit (Open_status_file mode_w) ;;;
  d <- get_disk ;;
  match d with
  | NoDir => raise FileNotFoundError
  | Dir _ => set_disk (Dir (Some (Garbled "")))
  end.

(** [json.dump(status, f, indent=2)] writes the text piece by piece:
    [fp_write written] is the file once [written], a part of the text short
    of its end, has reached it. *)
Definition fp_write (written : string) : M unit :=
  d <- get_disk ;;
  match d with
  | Dir (Some _) => set_disk (Dir (Some (Garbled written)))
  | _ => raise FileNotFoundError
  end.

(** The last piece of [json.dump] and the close of the [with] block: the
    file holds the whole text. *)
Definition json_dump (st : status) : M unit :=
  d <- get_disk ;;
  match d with
  | Dir (Some _) => set_disk (Dir (Some (Dumped st)))
  | _ => raise FileNotFoundError
  end.

(** The steps of [save_email_status], in program order. *)
Definition save_steps (env : environment) (st : status) : list (M unit) :=
  [os_makedirs; open_w_STATUS_FILE] ++
  map fp_write (dump_progress env st) ++
  [json_dump st].

Fixpoint do_all (steps : list (M unit)) : M unit :=
  match steps with
  | [] => ret tt
  | step :: rest => step ;;; do_all rest
  end.

Definition save_email_status (env : environment) (st : status) : M unit :=
  do_all (save_steps env st).

(** *** generate_email_content, lines 71-104 *)

(** [json.loads(response.choices[0].message.content)] *)
Definition json_loads (r : reply) : M json :=
  match r with
  | No_content => raise TypeError
  | Not_json _ => raise JSONDecodeError
  | Json v => ret v
  end.

(** The request of lines 98-101 together with the access to
    [choices[0].message.content] is one service call. *)
Definition generate_email_content (env : environment) (p : professor)
    (cv_content : string) : M (json * json) :=
  emit (Call_generate_email_content p cv_content) ;;;
  let prompt :=
    {| model := "gpt-3.5-turbo";
       prompt_name := name p;
       prompt_research_domain := research_domain p;
       prompt_university := university p;
       prompt_cv_highlights := substring 0 500 cv_content |} in
  n <- next_call ;;
  response <- lift (chat_completions_create env n prompt) ;;
  email_content <- json_loads response ;;
  subject <- lift (subscript email_content "subject") ;;
  body <- lift (subscript email_content "body") ;;
  ret (subject, body).

(** *** read_cv, lines 106-114 *)

(** [f.read(5000)] takes at most 5000 bytes of the file, which are then
    decoded with the invalid ones dropped. *)
Definition read_cv (env : environment) : M string :=
  match cv_file env with
  | Some cv => ret (utf8_decode_ignore env (substring 0 5000 cv))
  | None =>
      print Error_reading_CV ;;;
      ret "CV could not be read. Please ensure it exists at the specified path."
  end.

(** *** send_email, lines 116-138 *)

(** [MIMEText(body, 'plain')] calls [body.encode], which only text has. *)
Definition MIMEText (body : json) : M string :=
  match body with
  | JString text => ret text
  | _ => raise AttributeError
  end.

(** Lines 132-135.  A message the server has taken stays taken when leaving
    the block raises. *)
Definition smtp_with_block (env : environment) (n : nat) (msg : mime_message) :
    M unit :=
  match smtp_session env n msg with
  | Not_sent e => raise e
  | Sent_quit_failed e => emit (Smtp_send_message msg) ;;; raise e
  | Sent => emit (Smtp_send_message msg)
  end.

Definition send_email (env : environment) (p : professor)
    (subject body : json) : M bool :=
  emit (Call_send_email p subject body) ;;;
  text <- MIMEText body ;;
  match cv_file env with
  | None => raise FileNotFoundError
  | Some cv =>
      let msg :=
        {| msg_From := EMAIL_USERNAME env;
           msg_To := email p;
           msg_Subject := subject;
           msg_body := text;
           msg_attachment := cv |} in
      n <- next_call ;;
      smtp_with_block env n msg ;;;
      print (Email_sent_to (name p) (email p)) ;;;
      ret true
  end.

(** *** main, lines 140-181 *)

(** The local variables the loop updates: [sent_emails] and [emails_sent]. *)
Definition locals : Type := (list string * Z)%type.

(** Lines 155-174, one iteration.  Nothing can raise between the [append]
    and the end of the [try] block, so an iteration that raises inside the
    block leaves both locals as they were. *)
Definition loop_body (env : environment) (professors : list professor)
    (cv_content : string) (vars : locals) (i : Z) : M locals :=
  let '(sent_emails, emails_sent) := vars in
  p <- lift (getitem professors i) ;;
  if py_in (email p) sent_emails then ret vars
  else
    try_except
      (' (subject, body) <- generate_email_content env p cv_content ;;
       success <- send_email env p subject body ;;
       if success : bool then
         emit (Sleep 30) ;;;
         ret (sent_emails ++ [email p], emails_sent + 1)
       else ret vars)
      (fun e => print (Error_sending_email_to (name p) e) ;;; ret vars).

(** [main] with the quota as a parameter. *)
Definition main_quota (quota : Z) (env : environment) : M unit :=
  professors <- get_professor_data env ;;
  match professors with
  | [] => print No_professor_data_found
  | _ :: _ =>
      st <- load_email_status ;;
      let start := last_index st in
      cv_content <- read_cv env ;;
      ' (sent, emails_sent) <-
        for_each (range start (Z.min (start + quota) (len professors)))
                 (loop_body env professors cv_content) (sent_emails st, 0) ;;
      let st' :=
        {| last_index := Z.min (start + quota) (len professors);
           sent_emails := sent |} in
      save_email_status env st' ;;;
      print (Sent_emails_Next_start_index emails_sent (last_index st'))
  end.

Definition main : environment -> M unit := main_quota EMAILS_PER_DAY.

(** ** Runs *)

(** A run is a fresh process started on the disk the previous run left. *)
Definition boot (d : storage) : world :=
  {| disk := d; calls := 0%nat; trace := [] |}.

Definition run (quota : Z) (d : storage) (env : environment) : storage :=
  disk (snd (main_quota quota env (boot d))).

Definition runs (quota : Z) (d : storage) (envs : list environment) : storage :=
  fold_left (run quota) envs d.

Definition run_result (quota : Z) (d : storage) (env : environment) : result unit :=
  fst (main_quota quota env (boot d)).

Definition run_trace (quota : Z) (d : storage) (env : environment) : list event :=
  trace (snd (main_quota quota env (boot d))).

(** The checkpoint a run would load from a disk. *)
Definition persisted (d : storage) : result status :=
  fst (load_email_status (boot d)).

(** What a run reads from its collaborators before touching the disk:
    [get_professor_data] and [read_cv] depend on the environment alone. *)
Definition fetched (env : environment) : result (list professor) :=
  fst (get_professor_data env (boot NoDir)).

Definition fetch_trace (env : environment) : list event :=
  trace (snd (get_professor_data env (boot NoDir))).

Definition cv_content_of (env : environment) : string :=
  match fst (read_cv env (boot NoDir)) with
  | Return cv => cv
  | Raise _ => ""
  end.

Definition read_cv_trace (env : environment) : list event :=
  trace (snd (read_cv env (boot NoDir))).

Definition load_trace (d : storage) : list event :=
  trace (snd (load_email_status (boot d))).

(** The address an observable action is directed at, if any. *)
Definition addressee (ev : event) : option string :=
  match ev with
  | Call_generate_email_content p _ => Some (email p)
  | Call_send_email p _ _ => Some (email p)
  | Smtp_send_message msg => Some (msg_To msg)
  | Stdout (Email_sent_to _ address) => Some address
  | _ => None
  end.

(** What one attempt on a contact leaves in the trace, with its outcome
    ([true]: [send_email] returned [True]). *)
Inductive attempt (env : environment) (p : professor) (cv : string) :
    bool -> list event -> Prop :=
| generation_failed e :
    attempt env p cv false
      [Call_generate_email_content p cv;
       Stdout (Error_sending_email_to (name p) e)]
| delivery_failed subject body e :
    attempt env p cv false
      [Call_generate_email_content p cv;
       Call_send_email p subject body;
       Stdout (Error_sending_email_to (name p) e)]
| delivery_unconfirmed subject body attachment e :
    attempt env p cv false
      [Call_generate_email_content p cv;
       Call_send_email p subject (JString body);
       Smtp_send_message
         {| msg_From := EMAIL_USERNAME env; msg_To := email p;
            msg_Subject := subject; msg_body := body;
            msg_attachment := attachment |};
       Stdout (Error_sending_email_to (name p) e)]
| delivery_done subject body attachment :
    attempt env p cv true
      [Call_generate_email_content p cv;
       Call_send_email p subject (JString body);
       Smtp_send_message
         {| msg_From := EMAIL_USERNAME env; msg_To := email p;
            msg_Subject := subject; msg_body := body;
            msg_attachment := attachment |};
       Stdout (Email_sent_to (name p) (email p));
       Sleep 30].

(** What the loop of [main] does over the indices [idx], as a relation
    between the locals at entry, the actions it adds to the trace and how it
    ends: with the final locals, or with the [IndexError] of [professors[i]]
    (which is outside the [try] block). *)
Inductive window_run (env : environment) (professors : list professor)
    (cv : string) : list Z -> locals -> list event -> result locals -> Prop :=
| window_end vars :
    window_run env professors cv [] vars [] (Return vars)
| window_index_error i idx vars :
    getitem professors i = Raise IndexError ->
    window_run env professors cv (i :: idx) vars [] (Raise IndexError)
| window_skip i idx p sent n evs r :
    getitem professors i = Return p ->
    In (email p) sent ->
    window_run env professors cv idx (sent, n) evs r ->
    window_run env professors cv (i :: idx) (sent, n) evs r
| window_attempt i idx p sent n delivered evs evs' r :
    getitem professors i = Return p ->
    ~ In (email p) sent ->
    attempt env p cv delivered evs ->
    window_run env professors cv idx
      (if delivered : bool then (sent ++ [email p], n + 1) else (sent, n))
      evs' r ->
    window_run env professors cv (i :: idx) (sent, n) (evs ++ evs') r.

(** The addresses [send_email] returned [True] for, in order: those of the
    "Email sent to" lines.  These are the deliveries the script knows of,
    counts and records; what the mail server took is [accepted] below. *)
Fixpoint deliveries (evs : list event) : list string :=
  match evs with
  | [] => []
  | Stdout (Email_sent_to _ address) :: evs' => address :: deliveries evs'
  | _ :: evs' => deliveries evs'
  end.

(** The addresses the mail server took a message for, in order, whether or
    not the session ended normally afterwards. *)
Fixpoint accepted (evs : list event) : list string :=
  match evs with
  | [] => []
  | Smtp_send_message msg :: evs' => msg_To msg :: accepted evs'
  | _ :: evs' => accepted evs'
  end.

(** ** Notions used in the statements *)

(** An action that is directed at nobody and does not write the status file. *)
Definition quiet (ev : event) : Prop :=
  addressee ev = None /\ ev <> Makedirs /\ ev <> Open_status_file mode_w.

(** The attempt on [p] from world [w] fails with [e]: generation raises, or
    generation returns and delivery raises. *)
Definition attempt_raises (env : environment) (p : professor) (cv : string)
    (w : world) (e : Exception) : Prop :=
  fst (generate_email_content env p cv w) = Raise e \/
  exists subject body w1,
    generate_email_content env p cv w = (Return (subject, body), w1) /\
    fst (send_email env p subject body w1) = Raise e.

(** No run of the sequence fetches a contact list shorter than the
    [last_index] it loads. *)
Fixpoint never_shrinks (quota : Z) (d : storage) (envs : list environment) : Prop :=
  match envs with
  | [] => True
  | env :: envs' =>
      (forall st professors,
         persisted d = Return st ->
         fetched env = Return professors ->
         last_index st <= len professors) /\
      never_shrinks quota (run quota d env) envs'
  end.

(** [save_email_status] stopped after its first [n] steps (the process is
    killed, or a write fails). *)
Definition interrupted_save (n : nat) (env : environment) (st : status) : M unit :=
  do_all (firstn n (save_steps env st)).

(** [len(row) >= 3], the guard of line 46. *)
Definition usable (row : list string) : bool := 3 <=? len row.

(** The environment with another sheet behind the same services. *)
Definition with_sheet (env : environment) (values : list (list string)) : environment :=
  {| EMAIL_USERNAME := EMAIL_USERNAME env;
     sheet_values := Return values;
     cv_file := cv_file env;
     utf8_decode_ignore := utf8_decode_ignore env;
     chat_completions_create := chat_completions_create env;
     smtp_session := smtp_session env;
     dump_progress := dump_progress env |}.

(** ** Postconditions *)

(** The world after some more observable actions. *)
Definition log (evs : list event) (w : world) : world :=
  {| disk := disk w; calls := calls w; trace := trace w ++ evs |}.

(** [post m w Q E]: run from [w], [m] either returns a value and a world in
    [Q] or raises an exception in a world in [E]. *)
Definition post {A : Type} (m : M A) (w : world)
    (Q : A -> world -> Prop) (E : Exception -> world -> Prop) : Prop :=
  match m w with
  | (Return a, w') => Q a w'
  | (Raise e, w') => E e w'
  end.

(** ** Example environments *)

Definition good_reply : result reply :=
  Return (Json (JObject [("subject", JString "Summer internship");
                         ("body", JString "Dear Professor")])).

(** A sheet with four usable rows and one row that is too short. *)
Definition five_rows : list (list string) :=
  [["Ada"; "logic"; "ada@u.edu"];
   ["incomplete"; "row"];
   ["Bob"; "graphs"; "bob@u.edu"; "MIT"];
   ["Cy"; "types"; "cy@u.edu"];
   ["Di"; "networks"; "di@u.edu"; "ETH"]].

(** The generator's reply for the second contact (the third service call of
    the run) is not JSON; every other call succeeds. *)
Definition second_generation_fails : environment :=
  {| EMAIL_USERNAME := "me@example.org";
     sheet_values := Return five_rows;
     cv_file := Some "%PDF-1.4";
     utf8_decode_ignore := fun bytes => bytes;
     chat_completions_create :=
       fun n _ => if Nat.eqb n 2 then Return (Not_json "Sure! Here is") else good_reply;
     smtp_session := fun _ _ => Sent;
     dump_progress := fun _ => [] |}.

(** Twelve rows, all for the same address; every call succeeds. *)
Definition twelve_rows_one_address : environment :=
  {| EMAIL_USERNAME := "me@example.org";
     sheet_values := Return (repeat ["Ada"; "logic"; "ada@u.edu"] 12);
     cv_file := Some "%PDF-1.4";
     utf8_decode_ignore := fun bytes => bytes;
     chat_completions_create := fun _ _ => good_reply;
     smtp_session := fun _ _ => Sent;
     dump_progress := fun _ => [] |}.

(** The scenario of the specification: five contacts, a quota of two. *)
Definition five_contacts : environment :=
  {| EMAIL_USERNAME := "me@example.org";
     sheet_values :=
       Return [["A"; "a"; "a@u.edu"]; ["B"; "b"; "b@u.edu"]; ["C"; "c"; "c@u.edu"];
               ["D"; "d"; "d@u.edu"]; ["E"; "e"; "e@u.edu"]];
     cv_file := Some "%PDF-1.4";
     utf8_decode_ignore := fun bytes => bytes;
     chat_completions_create := fun _ _ => good_reply;
     smtp_session := fun _ _ => Sent;
     dump_progress := fun _ => [] |}.

(** The text of the status reaches the file in two pieces, the first of
    which is its opening brace. *)
Definition dump_in_pieces : environment :=
  {| EMAIL_USERNAME := "me@example.org";
     sheet_values := Return five_rows;
     cv_file := Some "%PDF-1.4";
     utf8_decode_ignore := fun bytes => bytes;
     chat_completions_create := fun _ _ => good_reply;
     smtp_session := fun _ _ => Sent;
     dump_progress := fun _ => ["{"] |}.

Definition no_sheet : environment :=
  {| EMAIL_USERNAME := "me@example.org";
     sheet_values := Return [];
     cv_file := None;
     utf8_decode_ignore := fun bytes => bytes;
     chat_completions_create := fun _ _ => Raise (APIError "down");
     smtp_session := fun _ _ => Not_sent (SMTPException "down");
     dump_progress := fun _ => [] |}.

Definition Bob : professor :=
  {| name := "Bob"; research_domain := "graphs"; email := "bob@u.edu";
     university := "MIT" |}.

Definition ada_delivered : status :=
  {| last_index := 0; sent_emails := ["ada@u.edu"] |}.

Definition all_five_done : status :=
  {| last_index := 5;
     sent_emails := ["a@u.edu"; "b@u.edu"; "c@u.edu"; "d@u.edu"; "e@u.edu"] |}.

(** ** Notions used in the further properties *)

(** The actions of a run outside the attempts on contacts. *)
Definition housekeeping (ev : event) : Prop :=
  match ev with
  | Call_generate_email_content _ _ | Call_send_email _ _ _
  | Smtp_send_message _ | Sleep _
  | Stdout (Email_sent_to _ _) | Stdout (Error_sending_email_to _ _) => False
  | _ => True
  end.

(** The contacts [generate_email_content] was called for, in order. *)
Fixpoint attempted (evs : list event) : list professor :=
  match evs with
  | [] => []
  | Call_generate_email_content p _ :: evs' => p :: attempted evs'
  | _ :: evs' => attempted evs'
  end.

(** The contacts an error line was printed for, by name, in order. *)
Fixpoint failures (evs : list event) : list string :=
  match evs with
  | [] => []
  | Stdout (Error_sending_email_to contact _) :: evs' => contact :: failures evs'
  | _ :: evs' => failures evs'
  end.

(** The pauses of [time.sleep], in order. *)
Fixpoint sleeps (evs : list event) : list Z :=
  match evs with
  | [] => []
  | Sleep seconds :: evs' => seconds :: sleeps evs'
  | _ :: evs' => sleeps evs'
  end.

(** [v] is the value of the last member named [key] of an object. *)
Definition last_member (members : list (string * json)) (key : string)
    (v : json) : Prop :=
  exists before after,
    members = before ++ (key, v) :: after /\
    forall v', ~ In (key, v') after.

(** The pauses of a trace are in place: each pause lasts 30 seconds and is
    the action right after an "Email sent to" line, and each such line is
    followed at once by a pause.  [pending] tells that the previous action
    was an "Email sent to" line, whose pause is due. *)
Fixpoint paced_from (pending : bool) (evs : list event) : bool :=
  match evs with
  | [] => negb pending
  | Sleep seconds :: evs' => pending && (seconds =? 30) && paced_from false evs'
  | Stdout (Email_sent_to _ _) :: evs' => negb pending && paced_from true evs'
  | _ :: evs' => negb pending && paced_from false evs'
  end.

(** The addresses [send_email] returned [True] for over a sequence of runs,
    in order. *)
Fixpoint runs_deliveries (quota : Z) (d : storage) (envs : list environment) :
    list string :=
  match envs with
  | [] => []
  | env :: envs' =>
      deliveries (run_trace quota d env) ++
      runs_deliveries quota (run quota d env) envs'
  end.

(** The window of a run that loaded [st] and fetched [professors]. *)
Definition window (quota : Z) (st : status) (professors : list professor) : list Z :=
  range (last_index st) (Z.min (last_index st + quota) (len professors)).

(** A sheet that cannot be read, a run without the CV file, and two contacts
    with the same address. *)
Definition sheet_unreachable : environment :=
  {| EMAIL_USERNAME := "me@example.org";
     sheet_values := Raise (HttpError "503");
     cv_file := Some "%PDF-1.4";
     utf8_decode_ignore := fun bytes => bytes;
     chat_completions_create := fun _ _ => good_reply;
     smtp_session := fun _ _ => Sent;
     dump_progress := fun _ => [] |}.

Definition cv_missing : environment :=
  {| EMAIL_USERNAME := "me@example.org";
     sheet_values := Return five_rows;
     cv_file := None;
     utf8_decode_ignore := fun bytes => bytes;
     chat_completions_create := fun _ _ => good_reply;
     smtp_session := fun _ _ => Sent;
     dump_progress := fun _ => [] |}.

(** Two rows for the same address.  The server takes every message, and
    answers the QUIT of the first session (the second service call of the
    run) with an error. *)
Definition first_quit_fails : environment :=
  {| EMAIL_USERNAME := "me@example.org";
     sheet_values :=
       Return [["Ada"; "logic"; "ada@u.edu"]; ["A. L."; "logic"; "ada@u.edu"]];
     cv_file := Some "%PDF-1.4";
     utf8_decode_ignore := fun bytes => bytes;
     chat_completions_create := fun _ _ => good_reply;
     smtp_session :=
       fun n _ =>
         if Nat.eqb n 1 then Sent_quit_failed (SMTPException "QUIT answered 421")
         else Sent;
     dump_progress := fun _ => [] |}.

Definition far_below : status := {| last_index := -9; sent_emails := [] |}.

Definition Ada : professor :=
  {| name := "Ada"; research_domain := "logic"; email := "ada@u.edu";
     university := "Unknown" |}.

(** * Reasoning about the monad *)

Lemma post_ret {A : Type} (a : A) w (Q : A -> world -> Prop) E :
  Q a w -> post (ret a) w Q E.
Proof. exact (fun H => H). Qed.

Lemma post_bind {A B : Type} (m : M A) (k : A -> M B) w
    (Q : B -> world -> Prop) E :
  post m w (fun a w' => post (k a) w' Q E) E -> post (bind m k) w Q E.
Proof.
  unfold post, bind. destruct (m w) as [[a | e] w']; exact (fun H => H).
Qed.

Lemma post_weaken {A : Type} (m : M A) w (Q Q' : A -> world -> Prop)
    (E E' : Exception -> world -> Prop) :
  post m w Q E ->
  (forall a w', Q a w' -> Q' a w') ->
  (forall e w', E e w' -> E' e w') ->
  post m w Q' E'.
Proof.
  unfold post. destruct (m w) as [[a | e] w']; intros H HQ HE; auto.
Qed.

(** The loop rule: an invariant of the body is an invariant of the loop, and
    an iteration that raises ends the loop where it raised. *)
Lemma post_for_each {A S : Type} (I : S -> world -> Prop)
    (E : Exception -> world -> Prop) (body : S -> A -> M S) (xs : list A) :
  (forall s x w, In x xs -> I s w -> post (body s x) w I E) ->
  forall s w, I s w -> post (for_each xs body s) w I E.
Proof.
  induction xs as [| x xs IH]; intros Hbody s w HI.
  - exact HI.
  - simpl. apply post_bind.
    apply post_weaken with (Q := I) (E := E).
    + apply Hbody; [left; reflexivity | exact HI].
    + intros s' w' HI'. apply IH; [| exact HI'].
      intros; apply Hbody; [right |]; assumption.
    + auto.
Qed.

Lemma log_nil w : log [] w = w.
Proof. destruct w. unfold log. simpl. rewrite app_nil_r. reflexivity. Qed.

Lemma log_log evs evs' w : log evs' (log evs w) = log (evs ++ evs') w.
Proof. unfold log. simpl. rewrite app_assoc. reflexivity. Qed.

(** ** Python helpers *)

Lemma py_in_true x l : py_in x l = true <-> In x l.
Proof.
  unfold py_in. rewrite existsb_exists. split.
  - intros [y [Hy Heq]]. apply String.eqb_eq in Heq. subst. exact Hy.
  - intros H. exists x. split; [exact H | apply String.eqb_refl].
Qed.

Lemma py_in_false x l : py_in x l = false <-> ~ In x l.
Proof.
  rewrite <- py_in_true. destruct (py_in x l); split; intros; congruence.
Qed.

Lemma range_empty a b : b <= a -> range a b = [].
Proof.
  intros H. unfold range.
  replace (Z.to_nat (b - a)) with 0%nat by lia. reflexivity.
Qed.

Lemma in_range a b i : In i (range a b) <-> a <= i < b.
Proof.
  unfold range. rewrite in_map_iff. split.
  - intros [k [Hk Hin]]. apply in_seq in Hin. lia.
  - intros H. exists (Z.to_nat (i - a)). split; [lia |].
    apply in_seq. lia.
Qed.

Lemma getitem_ok {A : Type} (l : list A) i :
  - len l <= i < len l -> exists x, getitem l i = Return x /\ In x l.
Proof.
  intros H. unfold getitem.
  set (j := if i <? 0 then i + len l else i).
  assert (Hj : 0 <= j < len l).
  { subst j. destruct (Z.ltb_spec i 0); lia. }
  destruct (Z.leb_spec 0 j); [| lia].
  destruct (Z.ltb_spec j (len l)); [| lia]. simpl.
  destruct (nth_error l (Z.to_nat j)) as [x |] eqn:Hnth.
  - exists x. split; [reflexivity |]. eapply nth_error_In; eassumption.
  - apply nth_error_None in Hnth. unfold len in *. lia.
Qed.

(** ** The parts of a run *)

(** The contacts built from the rows of the sheet, lines 44-52. *)
Lemma rows_loop_eq values acc w :
  for_each values
    (fun professors row =>
       if 3 <=? len row
       then ret (professors ++ [professor_of_row row])
       else ret professors)
    acc w =
  (Return (fold_left
             (fun professors row =>
                if 3 <=? len row
                then professors ++ [professor_of_row row]
                else professors)
             values acc), w).
Proof.
  revert acc. induction values as [| row values IH]; intros acc; [reflexivity |].
  simpl. unfold bind. destruct (3 <=? len row); unfold ret at 1; apply IH.
Qed.

(** [get_professor_data] neither reads nor writes the disk, and its result
    is the same wherever it is called. *)
Lemma get_professor_data_eq env w :
  get_professor_data env w = (fetched env, log (fetch_trace env) w).
Proof.
  unfold fetched, fetch_trace, get_professor_data, bind, emit, lift, print.
  destruct (sheet_values env) as [[| row values] | e];
    rewrite ?rows_loop_eq; unfold log, ret; simpl;
    rewrite <- ?app_assoc; reflexivity.
Qed.

Lemma read_cv_eq env w :
  read_cv env w = (Return (cv_content_of env), log (read_cv_trace env) w).
Proof.
  unfold cv_content_of, read_cv_trace, read_cv.
  destruct (cv_file env); simpl.
  - unfold ret. rewrite log_nil. reflexivity.
  - reflexivity.
Qed.

Lemma load_email_status_eq w :
  load_email_status w = (persisted (disk w), log (load_trace (disk w)) w).
Proof.
  unfold persisted, load_trace, load_email_status, os_path_exists_STATUS_FILE,
    json_load_STATUS_FILE, bind, get_disk, ret, emit, raise, log.
  destruct w as [[| [[text | st] |]] c t]; simpl;
    rewrite ?app_nil_r; reflexivity.
Qed.

(** Once the file is open, the writes of [json.dump] go through, however
    the text is split. *)
Lemma dump_writes_eq st progress f c t :
  do_all (map fp_write progress ++ [json_dump st])
    {| disk := Dir (Some f); calls := c; trace := t |} =
  (Return tt, {| disk := Dir (Some (Dumped st)); calls := c; trace := t |}).
Proof.
  revert f. induction progress as [| written progress IH]; intros f.
  - reflexivity.
  - cbn [map app do_all]. unfold bind at 1, fp_write at 1, bind at 1.
    cbn [get_disk disk set_disk calls trace]. apply IH.
Qed.

(** A save always completes and leaves the dumped status in [data/]. *)
Lemma save_email_status_eq env st w :
  save_email_status env st w =
  (Return tt,
   {| disk := Dir (Some (Dumped st)); calls := calls w;
      trace := trace w ++ [Makedirs; Open_status_file mode_w] |}).
Proof.
  unfold save_email_status, save_steps. cbn [app do_all].
  unfold bind at 1, os_makedirs, bind at 1, emit at 1, bind at 1, get_disk at 1.
  destruct w as [[| f] c t]; cbn [disk calls trace set_disk ret];
    unfold bind at 1, open_w_STATUS_FILE, bind at 1, emit at 1, bind at 1,
      get_disk at 1; cbn [disk calls trace set_disk];
    rewrite dump_writes_eq, <- app_assoc; reflexivity.
Qed.

(** ** One iteration of the loop *)

(** Case analysis on what the collaborators answer, one external call after
    the other. *)
Ltac answer_services env :=
  repeat (cbn [disk calls trace fst snd MIMEText ret raise];
    match goal with
    | |- context [chat_completions_create env ?k ?r] =>
        destruct (chat_completions_create env k r) as [[| ? | ?] | ?]
    | |- context [subscript ?v ?k] => destruct (subscript v k) as [? | ?]
    | |- context [MIMEText ?body] => destruct body
    | |- context [cv_file env] => destruct (cv_file env) as [? |]
    | |- context [smtp_session env ?k ?m] =>
        destruct (smtp_session env k m) as [? | ? |]
    end).

(** Induction on the derivation of a [window_run]. *)
Ltac window_induction H :=
  induction H as [vars | i idx vars Hget | i idx p sent n evs r Hget Hin H IH
                 | i idx p sent n delivered evs evs' r Hget Hin Hatt H IH].

(** An iteration either skips a contact whose address is already in
    [sent_emails], or makes one attempt on it; it never touches the disk, and
    the only exception that leaves it is the [IndexError] of
    [professors[i]]. *)
Lemma loop_body_spec env professors cv sent n i w :
  post (loop_body env professors cv (sent, n) i) w
    (fun vars w' =>
       exists p,
         getitem professors i = Return p /\
         disk w' = disk w /\
         ((In (email p) sent /\ vars = (sent, n) /\ w' = w) \/
          (~ In (email p) sent /\
           exists delivered evs,
             attempt env p cv delivered evs /\
             trace w' = trace w ++ evs /\
             vars = if delivered : bool
                    then (sent ++ [email p], n + 1) else (sent, n))))
    (fun e w' =>
       e = IndexError /\ w' = w /\ getitem professors i = Raise IndexError).
Proof.
  unfold post, loop_body, bind at 1, lift.
  destruct (getitem professors i) as [p | e] eqn:Hget; cycle 1.
  - unfold getitem in Hget.
    destruct ((0 <=? _) && (_ <? len professors));
      [destruct (nth_error professors _) |]; inversion Hget; auto.
  - destruct (py_in (email p) sent) eqn:Hin.
    + apply py_in_true in Hin. exists p.
      split; [reflexivity | split; [reflexivity | left; auto]].
    + apply py_in_false in Hin.
      unfold try_except, generate_email_content, send_email, smtp_with_block,
        json_loads, print, bind, lift, emit, next_call.
      answer_services env.
      all: cbn [disk calls trace fst snd MIMEText ret raise]; exists p;
        (split; [reflexivity |]); (split; [reflexivity |]); right;
        (split; [exact Hin |]).
      all: rewrite <- ?app_assoc; cbn [app].
      all: first
        [ exists false; eexists; split;
          [| split; [reflexivity | reflexivity]]; constructor
        | exists true; eexists; split;
          [| split; [reflexivity | reflexivity]]; constructor ].
Qed.

(** ** The loop *)

(** The loop follows [window_run] and leaves the disk alone. *)
Lemma for_each_window env professors cv idx vars w :
  post (for_each idx (loop_body env professors cv) vars) w
    (fun vars' w' =>
       disk w' = disk w /\
       exists evs,
         window_run env professors cv idx vars evs (Return vars') /\
         trace w' = trace w ++ evs)
    (fun e w' =>
       disk w' = disk w /\
       exists evs,
         window_run env professors cv idx vars evs (Raise e) /\
         trace w' = trace w ++ evs).
Proof.
  revert vars w. induction idx as [| i idx IH]; intros [sent n] w.
  - apply post_ret. split; [reflexivity |]. exists [].
    split; [constructor | symmetry; apply app_nil_r].
  - cbn [for_each]. apply post_bind.
    eapply post_weaken; [apply loop_body_spec | |].
    + intros vars' w' [p [Hget [Hdisk Hcase]]].
      eapply post_weaken; [apply IH | |].
      * intros vars'' w'' [Hdisk' [evs' [Hrun Htrace]]].
        split; [congruence |].
        destruct Hcase as [[Hin [-> ->]] | [Hin [delivered [evs [Hatt [Htr ->]]]]]].
        -- exists evs'. split; [| exact Htrace].
           eapply window_skip; eassumption.
        -- exists (evs ++ evs'). split.
           ++ eapply window_attempt; eassumption.
           ++ rewrite Htrace, Htr. symmetry. apply app_assoc.
      * intros e w'' [Hdisk' [evs' [Hrun Htrace]]].
        split; [congruence |].
        destruct Hcase as [[Hin [-> ->]] | [Hin [delivered [evs [Hatt [Htr ->]]]]]].
        -- exists evs'. split; [| exact Htrace].
           eapply window_skip; eassumption.
        -- exists (evs ++ evs'). split.
           ++ eapply window_attempt; eassumption.
           ++ rewrite Htrace, Htr. symmetry. apply app_assoc.
    + intros e w' [-> [-> Hget]]. split; [reflexivity |]. exists [].
      split; [constructor; exact Hget | symmetry; apply app_nil_r].
Qed.

Lemma deliveries_app evs evs' :
  deliveries (evs ++ evs') = deliveries evs ++ deliveries evs'.
Proof.
  induction evs as [| ev evs IH]; [reflexivity |].
  destruct ev as [[] | | | | | | |]; simpl; rewrite IH; reflexivity.
Qed.

Lemma attempt_deliveries env p cv delivered evs :
  attempt env p cv delivered evs ->
  deliveries evs = if delivered then [email p] else [].
Proof. intros H; destruct H; reflexivity. Qed.

Lemma attempt_addressee env p cv delivered evs ev a :
  attempt env p cv delivered evs ->
  In ev evs -> addressee ev = Some a -> a = email p.
Proof.
  intros H Hin Ha. destruct H; simpl in Hin;
    repeat (destruct Hin as [<- | Hin]; [simpl in Ha; congruence |]);
    contradiction.
Qed.

(** The loop appends to [sent_emails] exactly the addresses [send_email]
    returned [True] for, and counts them in [emails_sent]. *)
Lemma window_run_sent env professors cv idx vars evs vars' :
  window_run env professors cv idx vars evs (Return vars') ->
  fst vars' = fst vars ++ deliveries evs /\
  snd vars' = snd vars + len (deliveries evs).
Proof.
  remember (Return vars') as r eqn:Hr. intros H. revert vars' Hr.
  window_induction H;
    intros vars' Hr.
  - injection Hr as <-. unfold len. simpl. rewrite app_nil_r.
    split; [reflexivity | lia].
  - discriminate.
  - apply IH, Hr.
  - destruct (IH vars' Hr) as [Hs Hn].
    rewrite deliveries_app, (attempt_deliveries _ _ _ _ _ Hatt).
    destruct delivered; simpl in *.
    + rewrite Hs, Hn, <- app_assoc. split; [reflexivity |].
      unfold len. cbn [List.length]. lia.
    + auto.
Qed.

(** No action of the loop is directed at an address that was in
    [sent_emails] when the loop started. *)
Lemma window_run_addressee env professors cv idx vars evs r :
  window_run env professors cv idx vars evs r ->
  forall ev a, In ev evs -> addressee ev = Some a -> ~ In a (fst vars).
Proof.
  intros H. window_induction H;
    intros ev a Hev Ha; simpl in *.
  - contradiction.
  - contradiction.
  - eapply IH; eassumption.
  - apply in_app_or in Hev. destruct Hev as [Hev | Hev].
    + rewrite (attempt_addressee _ _ _ _ _ _ _ Hatt Hev Ha). exact Hin.
    + intros Hsent. apply (IH ev a Hev Ha).
      destruct delivered; simpl; [apply in_or_app; left |]; exact Hsent.
Qed.

(** The membership test before each [append] keeps [sent_emails] free of
    duplicates. *)
Lemma window_run_NoDup env professors cv idx vars evs vars' :
  window_run env professors cv idx vars evs (Return vars') ->
  NoDup (fst vars) -> NoDup (fst vars').
Proof.
  remember (Return vars') as r eqn:Hr. intros H. revert vars' Hr.
  window_induction H;
    intros vars' Hr Hnd.
  - injection Hr as <-. exact Hnd.
  - discriminate.
  - apply IH; assumption.
  - apply IH; [exact Hr |]. destruct delivered; [| exact Hnd].
    simpl in *. apply NoDup_app; [exact Hnd | repeat constructor; auto |].
    intros a Ha [<- | []]. contradiction.
Qed.

(** The loop can only raise at an index outside the list. *)
Lemma window_run_raise env professors cv idx vars evs e :
  window_run env professors cv idx vars evs (Raise e) ->
  e = IndexError /\
  exists i, In i idx /\ getitem professors i = Raise IndexError.
Proof.
  remember (Raise e) as r eqn:Hr. intros H. revert Hr.
  window_induction H;
    intros Hr.
  - discriminate.
  - injection Hr as <-. split; [reflexivity |]. exists i. simpl. auto.
  - destruct (IH Hr) as [He [j [Hj Hget']]]. split; [exact He |].
    exists j. simpl. auto.
  - destruct (IH Hr) as [He [j [Hj Hget']]]. split; [exact He |].
    exists j. simpl. auto.
Qed.

(** ** A whole run *)

(** The control flow of [main], with the reads of the collaborators and of
    the status file replaced by their values. *)
Lemma main_quota_eq quota env w :
  main_quota quota env w =
  match fetched env with
  | Raise e => (Raise e, log (fetch_trace env) w)
  | Return [] =>
      (Return tt, log (fetch_trace env ++ [Stdout No_professor_data_found]) w)
  | Return ((_ :: _) as professors) =>
      match persisted (disk w) with
      | Raise e => (Raise e, log (fetch_trace env ++ load_trace (disk w)) w)
      | Return st =>
          let stop := Z.min (last_index st + quota) (len professors) in
          match
            for_each (range (last_index st) stop)
              (loop_body env professors (cv_content_of env))
              (sent_emails st, 0)
              (log (fetch_trace env ++ load_trace (disk w) ++ read_cv_trace env) w)
          with
          | (Return (sent, n), w') =>
              (Return tt,
               {| disk := Dir (Some (Dumped {| last_index := stop;
                                               sent_emails := sent |}));
                  calls := calls w';
                  trace := trace w' ++
                           [Makedirs; Open_status_file mode_w;
                            Stdout (Sent_emails_Next_start_index n stop)] |})
          | (Raise e, w') => (Raise e, w')
          end
      end
  end.
Proof.
  unfold main_quota, bind at 1. rewrite get_professor_data_eq.
  destruct (fetched env) as [[| p ps] | e]; [| | reflexivity].
  - unfold print, emit, log. simpl. rewrite <- app_assoc. reflexivity.
  - unfold bind at 1. rewrite load_email_status_eq. cbn [disk log].
    destruct (persisted (disk w)) as [st | e].
    + unfold bind at 1. rewrite read_cv_eq. rewrite !log_log.
      unfold bind at 1.
      destruct (for_each _ _ _ _) as [[[sent n] | e] w'] eqn:Hloop.
      * unfold bind. rewrite save_email_status_eq.
        unfold print, emit. simpl. rewrite <- app_assoc. reflexivity.
      * reflexivity.
    + rewrite log_log. reflexivity.
Qed.

Lemma fetch_trace_eq env :
  fetch_trace env =
  match sheet_values env with
  | Return [] => [Sheets_get; Stdout No_data_found_in_the_Google_Sheet]
  | _ => [Sheets_get]
  end.
Proof.
  unfold fetch_trace, get_professor_data, bind, emit, lift, print.
  destruct (sheet_values env) as [[| row values] | e];
    rewrite ?rows_loop_eq; reflexivity.
Qed.

Lemma load_trace_eq d :
  load_trace d =
  match d with
  | Dir (Some _) => [Open_status_file mode_r]
  | _ => []
  end.
Proof. destruct d as [| [[text | st] |]]; reflexivity. Qed.

Lemma read_cv_trace_eq env :
  read_cv_trace env =
  match cv_file env with
  | Some _ => []
  | None => [Stdout Error_reading_CV]
  end.
Proof. unfold read_cv_trace, read_cv. destruct (cv_file env); reflexivity. Qed.

Lemma setup_quiet env d ev :
  In ev (fetch_trace env ++ load_trace d ++ read_cv_trace env) -> quiet ev.
Proof.
  rewrite fetch_trace_eq, load_trace_eq, read_cv_trace_eq.
  destruct (sheet_values env) as [[| row values] | e];
    destruct d as [| [f |]]; destruct (cv_file env); simpl;
    intros H; repeat (destruct H as [<- | H]; [repeat split; discriminate |]);
    contradiction.
Qed.

Lemma deliveries_quiet evs :
  (forall ev, In ev evs -> quiet ev) -> deliveries evs = [].
Proof.
  induction evs as [| ev evs IH]; intros H; [reflexivity |].
  assert (Hev : quiet ev) by (apply H; left; reflexivity).
  destruct Hev as [Ha _].
  destruct ev as [[] | | | | | | |]; simpl in *; try discriminate;
    apply IH; intros; apply H; auto.
Qed.

(** The shape of a run that fetched contacts and loaded a status: the loop
    runs over the window; if it ends, the status is saved with the window's
    upper bound as [last_index], and if [professors[i]] raises, the disk is
    left as it was. *)
Lemma main_quota_window quota env d p ps st :
  fetched env = Return (p :: ps) ->
  persisted d = Return st ->
  let stop := Z.min (last_index st + quota) (len (p :: ps)) in
  let setup := fetch_trace env ++ load_trace d ++ read_cv_trace env in
  exists evs r,
    window_run env (p :: ps) (cv_content_of env)
      (range (last_index st) stop) (sent_emails st, 0) evs r /\
    match r with
    | Return (sent, n) =>
        run_result quota d env = Return tt /\
        run quota d env =
          Dir (Some (Dumped {| last_index := stop; sent_emails := sent |})) /\
        run_trace quota d env =
          setup ++ evs ++
          [Makedirs; Open_status_file mode_w;
           Stdout (Sent_emails_Next_start_index n stop)]
    | Raise e =>
        run_result quota d env = Raise e /\
        run quota d env = d /\
        run_trace quota d env = setup ++ evs
    end.
Proof.
  intros Hfetch Hload stop setup.
  unfold run_result, run, run_trace. rewrite main_quota_eq, Hfetch.
  cbn [boot disk]. rewrite Hload. cbv zeta. fold stop. fold setup.
  pose proof (for_each_window env (p :: ps) (cv_content_of env)
                (range (last_index st) stop) (sent_emails st, 0)
                (log setup (boot d))) as Hloop.
  unfold post in Hloop.
  destruct (for_each _ _ _ _) as [[[sent n] | e] w'].
  - destruct Hloop as [Hdisk [evs [Hrun Htrace]]].
    exists evs, (Return (sent, n)). split; [exact Hrun |].
    cbn [fst snd disk trace]. rewrite Htrace. cbn [log boot trace app].
    rewrite <- app_assoc. auto.
  - destruct Hloop as [Hdisk [evs [Hrun Htrace]]].
    exists evs, (Raise e). split; [exact Hrun |].
    cbn [fst snd]. rewrite Htrace, Hdisk. cbn [log boot trace disk app]. auto.
Qed.

(** In a window that starts at an index of the list every [professors[i]]
    succeeds, so the loop ends. *)
Lemma window_run_ends env professors cv start stop vars evs r :
  - len professors <= start ->
  stop <= len professors ->
  window_run env professors cv (range start stop) vars evs r ->
  exists vars', r = Return vars'.
Proof.
  intros Hstart Hstop Hrun. destruct r as [vars' | e]; [eauto |].
  apply window_run_raise in Hrun. destruct Hrun as [_ [i [Hi Hget]]].
  apply in_range in Hi.
  destruct (getitem_ok professors i) as [x [Hx _]]; [lia | congruence].
Qed.

Lemma getitem_raise {A : Type} (l : list A) i :
  i < - len l -> getitem l i = Raise IndexError.
Proof.
  intros H. unfold getitem.
  assert (Hlen : 0 <= len l) by (unfold len; lia).
  destruct (Z.ltb_spec i 0); [| lia].
  destruct (Z.leb_spec 0 (i + len l)); [lia | reflexivity].
Qed.

Lemma range_cons a b : a < b -> range a b = a :: range (a + 1) b.
Proof.
  intros H. unfold range.
  replace (Z.to_nat (b - a)) with (S (Z.to_nat (b - (a + 1)))) by lia.
  cbn [seq map]. f_equal; [lia |].
  rewrite <- seq_shift, map_map. apply map_ext. intros k. lia.
Qed.

(** When the loop over a window raises, it raises at the window's first
    index, before any attempt. *)
Lemma window_run_raise_nil env professors cv start stop vars evs e :
  stop <= len professors ->
  window_run env professors cv (range start stop) vars evs (Raise e) ->
  evs = [].
Proof.
  intros Hstop Hrun.
  destruct (Z.le_gt_cases (- len professors) start) as [Hstart | Hstart].
  - destruct (window_run_ends _ _ _ _ _ _ _ _ Hstart Hstop Hrun); discriminate.
  - destruct (Z.lt_ge_cases start stop) as [Hlt | Hge].
    + rewrite (range_cons _ _ Hlt) in Hrun.
      pose proof (getitem_raise professors start ltac:(lia)) as Hget.
      inversion Hrun; subst; [reflexivity | congruence | congruence].
    + rewrite range_empty in Hrun by lia. inversion Hrun.
Qed.

Lemma persisted_Dumped st : persisted (Dir (Some (Dumped st))) = Return st.
Proof. reflexivity. Qed.

(** A run that cannot fetch contacts, or fetches none, stops before it
    touches the status file. *)
Lemma main_quota_fetch_raises quota env e w :
  fetched env = Raise e ->
  main_quota quota env w = (Raise e, log (fetch_trace env) w).
Proof. intros H. rewrite main_quota_eq, H. reflexivity. Qed.

Lemma main_quota_no_contacts quota env w :
  fetched env = Return [] ->
  main_quota quota env w =
  (Return tt, log (fetch_trace env ++ [Stdout No_professor_data_found]) w).
Proof. intros H. rewrite main_quota_eq, H. reflexivity. Qed.

Lemma fetch_trace_quiet env ev : In ev (fetch_trace env) -> quiet ev.
Proof.
  intros H. apply (setup_quiet env NoDir). apply in_or_app. left. exact H.
Qed.

Lemma deliveries_tail n stop :
  deliveries [Makedirs; Open_status_file mode_w;
              Stdout (Sent_emails_Next_start_index n stop)] = [].
Proof. reflexivity. Qed.

(** What every run does to a status it could load: the status it leaves has
    [sent_emails] extended by exactly the addresses delivered to in the run,
    duplicate-free if it was, and nothing in the run is directed at an
    address that was already there. *)
Lemma run_summary quota env d st :
  persisted d = Return st ->
  exists st',
    persisted (run quota d env) = Return st' /\
    sent_emails st' = sent_emails st ++ deliveries (run_trace quota d env) /\
    (NoDup (sent_emails st) -> NoDup (sent_emails st')) /\
    (forall ev a, In ev (run_trace quota d env) ->
                  addressee ev = Some a -> ~ In a (sent_emails st)).
Proof.
  intros Hload.
  destruct (fetched env) as [[| p ps] | e] eqn:Hfetch.
  - exists st. unfold run, run_trace.
    rewrite (main_quota_no_contacts _ _ _ Hfetch). cbn [snd log boot disk trace app].
    split; [exact Hload |]. split; [| split; [auto |]].
    + rewrite deliveries_quiet; [symmetry; apply app_nil_r |].
      intros ev Hev. apply in_app_or in Hev. destruct Hev as [Hev | [<- | []]].
      * apply fetch_trace_quiet with env. exact Hev.
      * repeat split; discriminate.
    + intros ev a Hev Ha. apply in_app_or in Hev.
      destruct Hev as [Hev | [<- | []]]; [| discriminate].
      apply fetch_trace_quiet in Hev. destruct Hev as [Hq _]. congruence.
  - destruct (main_quota_window quota env d p ps st Hfetch Hload)
      as [evs [r [Hrun Hr]]].
    assert (Hsetup : deliveries
              (fetch_trace env ++ load_trace d ++ read_cv_trace env) = []).
    { apply deliveries_quiet. intros ev. apply setup_quiet. }
    destruct r as [[sent n] | e].
    + destruct Hr as [_ [Hdisk Htrace]].
      exists {| last_index := Z.min (last_index st + quota) (len (p :: ps));
                sent_emails := sent |}.
      rewrite Hdisk, Htrace. split; [reflexivity |].
      pose proof (window_run_sent _ _ _ _ _ _ _ Hrun) as [Hsent _].
      cbn [fst sent_emails] in *.
      split; [| split].
      * rewrite deliveries_app, Hsetup, deliveries_app, deliveries_tail, app_nil_r.
        exact Hsent.
      * apply (window_run_NoDup _ _ _ _ _ _ _ Hrun).
      * intros ev a Hev Ha. apply in_app_or in Hev. destruct Hev as [Hev | Hev].
        { apply setup_quiet in Hev. destruct Hev as [Hq _]. congruence. }
        apply in_app_or in Hev. destruct Hev as [Hev | Hev].
        { apply (window_run_addressee _ _ _ _ _ _ _ Hrun ev a Hev Ha). }
        simpl in Hev.
        repeat (destruct Hev as [<- | Hev]; [discriminate |]). contradiction.
    + destruct Hr as [_ [Hdisk Htrace]].
      assert (Hevs : evs = []).
      { eapply window_run_raise_nil; [| exact Hrun]. apply Z.le_min_r. }
      subst evs. exists st. rewrite Hdisk, Htrace, app_nil_r, Hsetup, app_nil_r.
      split; [exact Hload |]. split; [reflexivity |]. split; [auto |].
      intros ev a Hev Ha. apply setup_quiet in Hev. destruct Hev as [Hq _].
      congruence.
  - exists st. unfold run, run_trace.
    rewrite (main_quota_fetch_raises _ _ _ _ Hfetch).
    cbn [snd log boot disk trace app].
    split; [exact Hload |]. split; [| split; [auto |]].
    + rewrite deliveries_quiet; [symmetry; apply app_nil_r |].
      intros ev. apply fetch_trace_quiet.
    + intros ev a Hev Ha. apply fetch_trace_quiet in Hev.
      destruct Hev as [Hq _]. congruence.
Qed.

Lemma persisted_inv d st :
  persisted d = Return st ->
  d = Dir (Some (Dumped st)) \/
  (st = default_status /\ (d = NoDir \/ d = Dir None)).
Proof.
  destruct d as [| [[text | st0] |]]; cbv; intros H;
    try discriminate; injection H as <-; auto.
Qed.

Lemma status_eta st :
  {| last_index := last_index st; sent_emails := sent_emails st |} = st.
Proof. destruct st; reflexivity. Qed.

(** ** Further facts about runs *)

Lemma generate_email_content_frame env p cv w :
  disk (snd (generate_email_content env p cv w)) = disk w /\
  trace (snd (generate_email_content env p cv w)) =
    trace w ++ [Call_generate_email_content p cv].
Proof.
  unfold generate_email_content, json_loads, bind, lift, emit, next_call, ret,
    raise.
  answer_services env.
  all: cbn [disk calls trace fst snd]; auto.
Qed.

Lemma send_email_raises_frame env p subject body w e :
  fst (send_email env p subject body w) = Raise e ->
  disk (snd (send_email env p subject body w)) = disk w /\
  exists evs,
    trace (snd (send_email env p subject body w)) =
      trace w ++ Call_send_email p subject body :: evs /\
    deliveries evs = [].
Proof.
  unfold send_email, smtp_with_block, print, bind, lift, emit, next_call.
  answer_services env.
  all: cbn [disk calls trace fst snd MIMEText ret raise]; try discriminate;
    intros _; (split; [reflexivity |]); rewrite <- ?app_assoc; cbn [app];
    eexists; split; reflexivity.
Qed.

(** A failing attempt is caught inside the iteration: the iteration returns
    with both locals unchanged, after printing the error. *)
Lemma loop_body_failure env professors cv sent n i w p e :
  getitem professors i = Return p ->
  ~ In (email p) sent ->
  attempt_raises env p cv w e ->
  exists w' evs,
    loop_body env professors cv (sent, n) i w = (Return (sent, n), w') /\
    disk w' = disk w /\
    trace w' = trace w ++ evs ++ [Stdout (Error_sending_email_to (name p) e)] /\
    deliveries evs = [].
Proof.
  intros Hget Hin Hfail. apply py_in_false in Hin.
  unfold loop_body, bind at 1, lift. rewrite Hget, Hin.
  unfold try_except, bind at 1.
  pose proof (generate_email_content_frame env p cv w) as [Hd Ht].
  destruct Hfail as [Hgen | [subject [body [w1 [Hgen Hsend]]]]].
  - destruct (generate_email_content env p cv w) as [[x | e0] w1].
    + discriminate.
    + cbn [fst snd] in *. injection Hgen as ->.
      eexists. exists [Call_generate_email_content p cv].
      unfold print, bind, emit, ret. cbn [disk trace].
      split; [reflexivity |].
      rewrite Ht, <- app_assoc. auto.
  - rewrite Hgen in *. cbn [fst snd] in *. unfold bind at 1.
    pose proof (send_email_raises_frame env p subject body w1 e Hsend)
      as [Hd' [evs [Ht' Hevs]]].
    destruct (send_email env p subject body w1) as [[b | e0] w2].
    + discriminate.
    + cbn [fst snd] in *. injection Hsend as ->.
      eexists.
      exists (Call_generate_email_content p cv ::
              Call_send_email p subject body :: evs).
      unfold print, bind, emit, ret. cbn [disk trace].
      split; [reflexivity |].
      rewrite Ht', Ht, Hd', Hd, <- !app_assoc. auto.
Qed.

(** A run that fetched contacts and loaded a status whose [last_index] is an
    index of the list (or whose window is empty) ends normally and saves
    [min(last_index + quota, len)]. *)
Lemma run_advances quota env d p ps st :
  fetched env = Return (p :: ps) ->
  persisted d = Return st ->
  - len (p :: ps) <= last_index st \/ quota <= 0 ->
  run_result quota d env = Return tt /\
  run quota d env =
    Dir (Some (Dumped
      {| last_index := Z.min (last_index st + quota) (len (p :: ps));
         sent_emails := sent_emails st ++ deliveries (run_trace quota d env) |})).
Proof.
  intros Hfetch Hload Hstart.
  destruct (main_quota_window quota env d p ps st Hfetch Hload)
    as [evs [r [Hrun Hr]]].
  assert (Hends : exists vars', r = Return vars').
  { destruct Hstart as [Hstart | Hquota].
    - exact (window_run_ends _ _ _ _ _ _ _ _ Hstart (Z.le_min_r _ _) Hrun).
    - rewrite range_empty in Hrun by lia. inversion Hrun; eauto. }
  destruct Hends as [[sent n] ->].
  destruct Hr as [Hres [Hdisk Htrace]]. split; [exact Hres |].
  rewrite Hdisk. do 3 f_equal.
  destruct (run_summary quota env d st Hload) as [st' [Hst' [Hsent _]]].
  rewrite Hdisk, persisted_Dumped in Hst'. injection Hst' as <-.
  cbn [sent_emails] in Hsent. rewrite <- Hsent. reflexivity.
Qed.

(** A run either leaves the disk as it was or saves a status whose
    [last_index] is the upper bound of its window. *)
Lemma run_cases quota env d st :
  persisted d = Return st ->
  run quota d env = d \/
  exists professors sent,
    fetched env = Return professors /\
    run quota d env =
      Dir (Some (Dumped
        {| last_index := Z.min (last_index st + quota) (len professors);
           sent_emails := sent |})).
Proof.
  intros Hload. destruct (fetched env) as [[| p ps] | e] eqn:Hfetch.
  - left. unfold run. rewrite (main_quota_no_contacts _ _ _ Hfetch). reflexivity.
  - destruct (main_quota_window quota env d p ps st Hfetch Hload)
      as [evs [[[sent n] | e] [Hrun Hr]]].
    + right. exists (p :: ps), sent. split; [reflexivity | apply Hr].
    + left. apply Hr.
  - left. unfold run. rewrite (main_quota_fetch_raises _ _ _ _ Hfetch).
    reflexivity.
Qed.

(** After each further run on the same non-empty list, [last_index] is the
    next multiple of the quota, capped at the length of the list. *)
Lemma runs_last_index quota professors envs :
  professors <> [] ->
  Forall (fun env => fetched env = Return professors) envs ->
  forall k d st,
    0 <= k ->
    persisted d = Return st ->
    last_index st = Z.min (k * quota) (len professors) ->
    exists sent,
      persisted (runs quota d envs) =
      Return {| last_index := Z.min ((k + len envs) * quota) (len professors);
                sent_emails := sent |}.
Proof.
  intros Hne Hall. induction Hall as [| env envs Hfetch Hall IH];
    intros k d st Hk Hload Hlast.
  - exists (sent_emails st). cbn [runs fold_left].
    replace (k + len (@nil environment)) with k by (unfold len; simpl; lia).
    rewrite <- Hlast, status_eta. exact Hload.
  - destruct professors as [| p ps]; [congruence |].
    assert (Hlen : 0 < len (p :: ps)) by (unfold len; simpl; lia).
    destruct (run_advances quota env d p ps st Hfetch Hload) as [_ Hdisk].
    { destruct (Z.le_gt_cases quota 0); [right; assumption | left; nia]. }
    cbn [runs fold_left]. fold (runs quota (run quota d env) envs).
    destruct (IH (k + 1) (run quota d env) _ ltac:(lia)
                 ltac:(rewrite Hdisk; apply persisted_Dumped))
      as [sent Hsent].
    + cbn [last_index]. rewrite Hlast. lia.
    + exists sent. rewrite Hsent. do 2 f_equal.
      f_equal. unfold len. cbn [List.length]. lia.
Qed.

Lemma run_last_index_le quota env d st st' :
  0 <= quota ->
  persisted d = Return st ->
  (forall professors, fetched env = Return professors ->
                      last_index st <= len professors) ->
  persisted (run quota d env) = Return st' ->
  last_index st <= last_index st'.
Proof.
  intros Hq Hload Hlen Hload'.
  destruct (run_cases quota env d st Hload)
    as [Heq | [professors [sent [Hfetch Heq]]]]; rewrite Heq in Hload'.
  - assert (st' = st) by congruence. subst. lia.
  - rewrite persisted_Dumped in Hload'. injection Hload' as <-.
    cbn [last_index]. specialize (Hlen professors Hfetch). lia.
Qed.

Lemma rows_fold_eq values acc :
  fold_left
    (fun professors row =>
       if 3 <=? len row then professors ++ [professor_of_row row] else professors)
    values acc =
  acc ++ map professor_of_row (filter usable values).
Proof.
  revert acc. induction values as [| row values IH]; intros acc.
  - symmetry. apply app_nil_r.
  - cbn [fold_left filter]. rewrite IH. unfold usable at 2.
    destruct (3 <=? len row); [| reflexivity].
    rewrite <- app_assoc. reflexivity.
Qed.

Lemma fetched_eq env values :
  sheet_values env = Return values ->
  fetched env = Return (map professor_of_row (filter usable values)).
Proof.
  intros Hsheet.
  unfold fetched, get_professor_data, bind, emit, lift, print.
  cbn [boot disk calls trace]. rewrite Hsheet.
  destruct values as [| row values]; [reflexivity |].
  rewrite rows_loop_eq. cbn [fst]. rewrite rows_fold_eq. reflexivity.
Qed.

Lemma filter_usable_idem values :
  filter usable (filter usable values) = filter usable values.
Proof.
  induction values as [| row values IH]; [reflexivity |].
  cbn [filter]. destruct (usable row) eqn:Hrow; [| exact IH].
  cbn [filter]. rewrite Hrow, IH. reflexivity.
Qed.

(** * Properties of the batch runner and the checkpoint store *)

(** ** Checkpoint store: load (C1) *)

(** C1, as stated, fails: a status file whose text [json.load] rejects makes
    [load_email_status] raise [JSONDecodeError]; it does not fall back to the
    default status. *)
Lemma load_email_status_unparsable_raises :
  fst (load_email_status (boot (Dir (Some (Garbled "{"))))) = Raise JSONDecodeError /\
  fst (load_email_status (boot (Dir (Some (Garbled "{"))))) <> Return default_status.
Proof. split; [reflexivity | discriminate]. Qed.

(** C1, amended: [load_email_status] returns the default status
    [{last_index: 0, sent_emails: []}] without raising exactly when the status
    file is absent (with or without its directory), then without opening
    anything; a file that is present is opened and parsed, which returns the
    stored status or raises [JSONDecodeError] on text that does not parse,
    and the file is left as it is in every case. *)
Theorem load_email_status_cases w :
  load_email_status w =
  match disk w with
  | NoDir | Dir None => (Return default_status, w)
  | Dir (Some (Garbled _)) =>
      (Raise JSONDecodeError, log [Open_status_file mode_r] w)
  | Dir (Some (Dumped st)) => (Return st, log [Open_status_file mode_r] w)
  end.
Proof.
  rewrite load_email_status_eq.
  destruct w as [[| [[text | st] |]] c t]; cbn [disk]; rewrite ?load_trace_eq;
    rewrite ?log_nil; reflexivity.
Qed.

(** ** Per-contact failures (C2) *)

(** C2: a contact whose generation or delivery raises is handled inside its
    iteration (the exception is caught, the error printed, [sent_emails] and
    the counter left as they were, and the loop goes on), and the run still
    ends normally and saves [last_index = min(last_index + quota, len)],
    with [sent_emails] extended by exactly the addresses delivered to. *)
Theorem failed_contact_caught_and_window_advances quota env d p ps st :
  fetched env = Return (p :: ps) ->
  persisted d = Return st ->
  0 <= last_index st ->
  (forall i q sent n w e,
     getitem (p :: ps) i = Return q ->
     ~ In (email q) sent ->
     attempt_raises env q (cv_content_of env) w e ->
     exists w' evs,
       loop_body env (p :: ps) (cv_content_of env) (sent, n) i w =
         (Return (sent, n), w') /\
       disk w' = disk w /\
       trace w' =
         trace w ++ evs ++ [Stdout (Error_sending_email_to (name q) e)] /\
       deliveries evs = []) /\
  run_result quota d env = Return tt /\
  run quota d env =
    Dir (Some (Dumped
      {| last_index := Z.min (last_index st + quota) (len (p :: ps));
         sent_emails := sent_emails st ++ deliveries (run_trace quota d env) |})).
Proof.
  intros Hfetch Hload Hstart. split.
  - intros i q sent n w e. apply loop_body_failure.
  - apply run_advances; [assumption | assumption |].
    left. unfold len. lia.
Qed.

(** The scenario of C2: a window of three contacts whose second contact
    fails generation; the first and the third are delivered. *)
Lemma failed_contact_caught_and_window_advances_witness :
  fetched second_generation_fails =
    Return (map professor_of_row
              [["Ada"; "logic"; "ada@u.edu"];
               ["Bob"; "graphs"; "bob@u.edu"; "MIT"];
               ["Cy"; "types"; "cy@u.edu"];
               ["Di"; "networks"; "di@u.edu"; "ETH"]]) /\
  persisted NoDir = Return default_status /\
  attempt_raises second_generation_fails Bob "%PDF-1.4"
    {| disk := NoDir; calls := 2; trace := [] |} JSONDecodeError /\
  run_result 3 NoDir second_generation_fails = Return tt /\
  run 3 NoDir second_generation_fails =
    Dir (Some (Dumped {| last_index := 3;
                         sent_emails := ["ada@u.edu"; "cy@u.edu"] |})).
Proof.
  split; [reflexivity |]. split; [reflexivity |].
  split; [left; reflexivity |].
  exact (proj2 (failed_contact_caught_and_window_advances
                  3 second_generation_fails NoDir _ _ default_status
                  eq_refl eq_refl (Z.le_refl 0))).
Defined.

(** ** Resumption (C3) *)

(** C3: starting from the default status, after [k] runs on a fixed
    non-empty contact list of length [L] with quota [Q], the persisted
    [last_index] is [min(k * Q, L)], whatever the generator and the mail
    server answered in those runs. *)
Theorem last_index_after_k_runs quota professors envs d :
  professors <> [] ->
  Forall (fun env => fetched env = Return professors) envs ->
  persisted d = Return default_status ->
  exists sent,
    persisted (runs quota d envs) =
    Return {| last_index := Z.min (len envs * quota) (len professors);
              sent_emails := sent |}.
Proof.
  intros Hne Hall Hload.
  destruct (runs_last_index quota professors envs Hne Hall 0 d default_status
              (Z.le_refl 0) Hload) as [sent Hsent].
  - cbn [last_index default_status].
    assert (0 <= len professors) by (unfold len; lia). lia.
  - exists sent. exact Hsent.
Qed.

Lemma last_index_after_k_runs_witness :
  exists sent,
    persisted (runs 3 NoDir [second_generation_fails; second_generation_fails]) =
    Return {| last_index := 4; sent_emails := sent |}.
Proof.
  apply (last_index_after_k_runs
           3 (map professor_of_row (filter (fun row => 3 <=? len row) five_rows))
           [second_generation_fails; second_generation_fails] NoDir).
  - discriminate.
  - repeat constructor.
  - reflexivity.
Defined.

Example five_contacts_quota_two :
  map (fun k => persisted (runs 2 NoDir (repeat five_contacts k))) [1; 2; 3; 4]%nat =
  [Return {| last_index := 2; sent_emails := ["a@u.edu"; "b@u.edu"] |};
   Return {| last_index := 4;
             sent_emails := ["a@u.edu"; "b@u.edu"; "c@u.edu"; "d@u.edu"] |};
   Return {| last_index := 5;
             sent_emails := ["a@u.edu"; "b@u.edu"; "c@u.edu"; "d@u.edu"; "e@u.edu"] |};
   Return {| last_index := 5;
             sent_emails := ["a@u.edu"; "b@u.edu"; "c@u.edu"; "d@u.edu"; "e@u.edu"] |}].
Proof. reflexivity. Qed.

(** ** No duplicate delivery (C4) *)

(** C4: a run never calls [generate_email_content] or [send_email] for, and
    never delivers to, an address that is in [sent_emails] of the status it
    loaded. *)
Theorem delivered_address_never_dispatched quota env d st a :
  persisted d = Return st ->
  In a (sent_emails st) ->
  forall ev, In ev (run_trace quota d env) -> addressee ev <> Some a.
Proof.
  intros Hload Hin ev Hev Ha.
  destruct (run_summary quota env d st Hload) as [st' [_ [_ [_ Hno]]]].
  exact (Hno ev a Hev Ha Hin).
Qed.

Lemma delivered_address_never_dispatched_witness :
  persisted (Dir (Some (Dumped ada_delivered))) = Return ada_delivered /\
  In "ada@u.edu" (sent_emails ada_delivered) /\
  forall ev,
    In ev (run_trace EMAILS_PER_DAY (Dir (Some (Dumped ada_delivered)))
             second_generation_fails) ->
    addressee ev <> Some "ada@u.edu".
Proof.
  split; [reflexivity |]. split; [left; reflexivity |].
  apply (delivered_address_never_dispatched EMAILS_PER_DAY
           second_generation_fails (Dir (Some (Dumped ada_delivered)))
           ada_delivered "ada@u.edu").
  - reflexivity.
  - left. reflexivity.
Defined.

(** ** Checkpoint invariants (C5) *)

(** C5, as stated, fails: after a first run on twelve rows has saved
    [last_index = 10], a run on a sheet with four usable rows saves
    [last_index = 4]. *)
Lemma last_index_decreases_when_list_shrinks :
  exists st1 st2,
    persisted (run EMAILS_PER_DAY NoDir twelve_rows_one_address) = Return st1 /\
    persisted (run EMAILS_PER_DAY
                 (run EMAILS_PER_DAY NoDir twelve_rows_one_address)
                 second_generation_fails) = Return st2 /\
    last_index st1 = 10 /\
    last_index st2 = 4 /\
    ~ (last_index st1 <= last_index st2).
Proof.
  exists {| last_index := 10; sent_emails := ["ada@u.edu"] |},
         {| last_index := 4; sent_emails := ["ada@u.edu"] |}.
  repeat split; try reflexivity. cbn [last_index]. lia.
Qed.

(** C5, amended: across every sequence of runs [sent_emails] only grows
    (the status persisted afterwards has the earlier list as a prefix); and
    [last_index] does not decrease across a sequence of runs of a
    non-negative quota in which no run fetches a contact list shorter than
    the [last_index] it loads. *)
Theorem checkpoint_grows_across_runs quota envs d st :
  persisted d = Return st ->
  exists st',
    persisted (runs quota d envs) = Return st' /\
    (exists added, sent_emails st' = sent_emails st ++ added) /\
    (0 <= quota -> never_shrinks quota d envs ->
     last_index st <= last_index st').
Proof.
  revert d st. induction envs as [| env envs IH]; intros d st Hload.
  - exists st. split; [exact Hload |]. split; [| lia].
    exists []. symmetry. apply app_nil_r.
  - destruct (run_summary quota env d st Hload) as [st1 [Hload1 [Hsent1 _]]].
    destruct (IH (run quota d env) st1 Hload1)
      as [st' [Hload' [[added Hsent'] Hindex]]].
    exists st'. split; [exact Hload' |]. split.
    + exists (deliveries (run_trace quota d env) ++ added).
      rewrite Hsent', Hsent1. symmetry. apply app_assoc.
    + intros Hq [Hhere Hlater].
      apply Z.le_trans with (last_index st1); [| auto].
      apply (run_last_index_le quota env d st st1 Hq Hload); [| exact Hload1].
      intros professors. apply Hhere. exact Hload.
Qed.

Lemma never_shrinks_example :
  never_shrinks EMAILS_PER_DAY NoDir
    [second_generation_fails; twelve_rows_one_address].
Proof.
  split; [| split; [| exact I]].
  - intros st professors Hst Hprofessors.
    vm_compute in Hst. injection Hst as <-.
    vm_compute in Hprofessors. injection Hprofessors as <-.
    vm_compute. discriminate.
  - intros st professors Hst Hprofessors.
    vm_compute in Hst. injection Hst as <-.
    vm_compute in Hprofessors. injection Hprofessors as <-.
    vm_compute. discriminate.
Defined.

Lemma checkpoint_grows_across_runs_witness :
  persisted NoDir = Return default_status /\
  exists st',
    persisted (runs EMAILS_PER_DAY NoDir
                 [second_generation_fails; twelve_rows_one_address]) = Return st' /\
    (exists added, sent_emails st' = [] ++ added) /\
    0 <= last_index st'.
Proof.
  split; [reflexivity |].
  destruct (checkpoint_grows_across_runs EMAILS_PER_DAY
              [second_generation_fails; twelve_rows_one_address] NoDir
              default_status eq_refl) as [st' [Hload [Hsent Hindex]]].
  exists st'. split; [exact Hload |]. split; [exact Hsent |].
  apply Hindex; [discriminate | exact never_shrinks_example].
Defined.

(** ** Exhaustion (C6) *)

(** C6: when the loaded [last_index] equals the length of the non-empty
    contact list, the run makes no attempt on any contact, prints a count of
    0, and saves the status it loaded: the disk is the same afterwards. *)
Theorem exhausted_run_changes_nothing quota env d st p ps :
  0 <= quota ->
  fetched env = Return (p :: ps) ->
  persisted d = Return st ->
  last_index st = len (p :: ps) ->
  run_result quota d env = Return tt /\
  run quota d env = d /\
  persisted (run quota d env) = Return st /\
  run_trace quota d env =
    fetch_trace env ++ load_trace d ++ read_cv_trace env ++
    [Makedirs; Open_status_file mode_w;
     Stdout (Sent_emails_Next_start_index 0 (len (p :: ps)))] /\
  forall ev, In ev (run_trace quota d env) -> addressee ev = None.
Proof.
  intros Hq Hfetch Hload Hlast.
  destruct (main_quota_window quota env d p ps st Hfetch Hload)
    as [evs [r [Hrun Hr]]].
  replace (Z.min (last_index st + quota) (len (p :: ps)))
    with (len (p :: ps)) in * by lia.
  rewrite range_empty in Hrun by lia.
  inversion Hrun; subst. destruct Hr as [Hres [Hdisk Htrace]].
  assert (Hd : d = Dir (Some (Dumped st))).
  { destruct (persisted_inv d st Hload) as [Hd | [-> _]]; [exact Hd |].
    unfold len in Hlast. simpl in Hlast. lia. }
  assert (Heq : run quota d env = d).
  { rewrite Hdisk, Hd, <- Hlast, status_eta. reflexivity. }
  split; [exact Hres |]. split; [exact Heq |].
  split; [rewrite Heq; exact Hload |].
  rewrite Htrace. cbn [app]. split; [rewrite <- !app_assoc; reflexivity |].
  intros ev Hev. apply in_app_or in Hev. destruct Hev as [Hev | Hev].
  - apply setup_quiet in Hev. apply Hev.
  - simpl in Hev.
    repeat (destruct Hev as [<- | Hev]; [reflexivity |]). contradiction.
Qed.

Lemma exhausted_run_changes_nothing_witness :
  0 <= 2 /\
  persisted (Dir (Some (Dumped all_five_done))) = Return all_five_done /\
  last_index all_five_done = 5 /\
  run 2 (Dir (Some (Dumped all_five_done))) five_contacts =
    Dir (Some (Dumped all_five_done)) /\
  run_trace 2 (Dir (Some (Dumped all_five_done))) five_contacts =
    [Sheets_get; Open_status_file mode_r; Makedirs; Open_status_file mode_w;
     Stdout (Sent_emails_Next_start_index 0 5)].
Proof.
  split; [discriminate |]. split; [reflexivity |]. split; [reflexivity |].
  pose proof (exhausted_run_changes_nothing 2 five_contacts
                (Dir (Some (Dumped all_five_done))) all_five_done _ _
                ltac:(discriminate) eq_refl eq_refl eq_refl)
    as [_ [Hdisk [_ [Htrace _]]]].
  split; [exact Hdisk | exact Htrace].
Defined.

(** ** Empty contact list (C7) *)

(** C7: when the fetched contact list is empty the run returns at once: it
    delivers to nobody (a processed count of 0), its only actions are the
    sheet read and prints, so the status file is neither opened nor written,
    and the disk, whatever its state, is left as it was. *)
Theorem empty_contact_list_leaves_checkpoint quota env w :
  fetched env = Return [] ->
  fst (main_quota quota env w) = Return tt /\
  disk (snd (main_quota quota env w)) = disk w /\
  exists evs,
    trace (snd (main_quota quota env w)) = trace w ++ evs /\
    len (deliveries evs) = 0 /\
    forall ev, In ev evs -> ev = Sheets_get \/ exists line, ev = Stdout line.
Proof.
  intros Hfetch. rewrite (main_quota_no_contacts _ _ _ Hfetch).
  cbn [fst snd log disk trace]. split; [reflexivity |]. split; [reflexivity |].
  exists (fetch_trace env ++ [Stdout No_professor_data_found]).
  split; [reflexivity |].
  rewrite fetch_trace_eq.
  destruct (sheet_values env) as [[| row values] | e]; (split; [reflexivity |]);
    simpl; intros ev H;
    repeat (destruct H as [<- | H]; [eauto |]); contradiction.
Qed.

Lemma empty_contact_list_leaves_checkpoint_witness :
  fetched no_sheet = Return [] /\
  disk (snd (main no_sheet (boot NoDir))) = NoDir.
Proof.
  split; [reflexivity |].
  exact (proj1 (proj2 (empty_contact_list_leaves_checkpoint
                         EMAILS_PER_DAY no_sheet (boot NoDir) eq_refl))).
Defined.

(** ** Checkpoint store: save (C8) *)

(** C8, as stated, fails: [open(STATUS_FILE, 'w')] truncates the old file
    and [json.dump] then writes the new text piece by piece; a save that
    stops after the first piece leaves a file holding only that piece, on
    which a load raises instead of returning the old or the new status. *)
Lemma interrupted_save_is_observable :
  let old := {| last_index := 10; sent_emails := ["ada@u.edu"] |} in
  let new := {| last_index := 20; sent_emails := ["ada@u.edu"; "bob@u.edu"] |} in
  let d := disk (snd (interrupted_save 3 dump_in_pieces new
                        (boot (Dir (Some (Dumped old)))))) in
  d = Dir (Some (Garbled "{")) /\
  persisted d = Raise JSONDecodeError /\
  persisted d <> Return old /\
  persisted d <> Return new.
Proof. repeat split; discriminate. Qed.

Lemma interrupted_dump_eq st progress k content c t :
  disk (snd (do_all (firstn k (map fp_write progress ++ [json_dump st]))
               {| disk := Dir (Some (Garbled content)); calls := c;
                  trace := t |})) =
  match nth_error (content :: progress) k with
  | Some written => Dir (Some (Garbled written))
  | None => Dir (Some (Dumped st))
  end.
Proof.
  revert k content. induction progress as [| piece progress IH];
    intros [| k] content; try reflexivity.
  - destruct k; reflexivity.
  - cbn [map app firstn do_all nth_error].
    unfold bind at 1, fp_write at 1, bind at 1.
    cbn [get_disk disk set_disk calls trace]. apply IH.
Qed.

(** C8, amended: [save_email_status] creates a missing [data/] directory
    before it opens the file, and a save that runs to its end leaves exactly
    the saved status for the next load.  The overwrite is in place: after the
    first step the directory exists and the file is untouched; from the
    opening of the file until the last piece of the text is written the
    file is empty or holds only a part of the new text, on which a load
    raises; only after the last step it holds the new status. *)
Theorem save_email_status_steps env st w :
  save_email_status env st w =
    (Return tt,
     {| disk := Dir (Some (Dumped st)); calls := calls w;
        trace := trace w ++ [Makedirs; Open_status_file mode_w] |}) /\
  persisted (disk (snd (save_email_status env st w))) = Return st /\
  forall n,
    disk (snd (interrupted_save n env st w)) =
    match n with
    | 0%nat => disk w
    | 1%nat => match disk w with NoDir => Dir None | Dir f => Dir f end
    | S (S k) =>
        match nth_error (EmptyString :: dump_progress env st) k with
        | Some written => Dir (Some (Garbled written))
        | None => Dir (Some (Dumped st))
        end
    end /\
    match n with
    | S (S k) =>
        k <= List.length (dump_progress env st) ->
        persisted (disk (snd (interrupted_save n env st w))) =
          Raise JSONDecodeError
    | _ => True
    end%nat.
Proof.
  split; [apply save_email_status_eq |].
  split; [rewrite save_email_status_eq; reflexivity |].
  intros n.
  assert (Hdisk :
    disk (snd (interrupted_save n env st w)) =
    match n with
    | 0%nat => disk w
    | 1%nat => match disk w with NoDir => Dir None | Dir f => Dir f end
    | S (S k) =>
        match nth_error (EmptyString :: dump_progress env st) k with
        | Some written => Dir (Some (Garbled written))
        | None => Dir (Some (Dumped st))
        end
    end).
  { unfold interrupted_save, save_steps.
    destruct n as [| [| k]].
    - reflexivity.
    - destruct w as [[| f] c t]; reflexivity.
    - cbn [app firstn do_all].
      unfold bind at 1, os_makedirs, bind at 1, emit at 1, bind at 1,
        get_disk at 1.
      destruct w as [[| f] c t]; cbn [disk calls trace set_disk ret];
        unfold bind at 1, open_w_STATUS_FILE, bind at 1, emit at 1, bind at 1,
          get_disk at 1; cbn [disk calls trace set_disk];
        apply interrupted_dump_eq. }
  split; [exact Hdisk |].
  destruct n as [| [| k]]; try exact I.
  intros Hk. rewrite Hdisk.
  destruct (nth_error (EmptyString :: dump_progress env st) k) as [written |]
    eqn:Hnth; [reflexivity |].
  apply nth_error_None in Hnth. cbn [List.length] in Hnth. lia.
Qed.

Lemma save_email_status_steps_witness :
  (1 <= List.length (dump_progress dump_in_pieces default_status))%nat /\
  persisted (disk (snd (interrupted_save 3 dump_in_pieces default_status
                          (boot NoDir)))) = Raise JSONDecodeError.
Proof.
  split; [apply le_n |].
  exact (proj2 (proj2 (proj2 (save_email_status_steps dump_in_pieces
                                default_status (boot NoDir))) 3%nat)
           (le_n 1)).
Defined.

(** ** Contact source (C9) *)

(** C9: [get_professor_data] returns one contact per row of at least three
    cells, in sheet order, and nothing for a shorter row, about which it
    prints nothing; a row of exactly three cells gets the university
    ["Unknown"]; and a run on the sheet does to the disk what a run on the
    sheet without its short rows does, so [last_index] and the window count
    positions among the rows of at least three cells. *)
Theorem short_rows_are_dropped env values :
  sheet_values env = Return values ->
  fetched env = Return (map professor_of_row (filter usable values)) /\
  (values <> [] -> fetch_trace env = [Sheets_get]) /\
  (forall row, len row = 3 -> university (professor_of_row row) = "Unknown") /\
  (forall quota d,
     run_result quota d env =
       run_result quota d (with_sheet env (filter usable values)) /\
     run quota d env = run quota d (with_sheet env (filter usable values))).
Proof.
  intros Hsheet. pose proof (fetched_eq env values Hsheet) as Hfetch.
  split; [exact Hfetch |]. split; [| split].
  - intros Hne. rewrite fetch_trace_eq, Hsheet.
    destruct values; [congruence | reflexivity].
  - intros row Hrow. unfold professor_of_row. cbn [university].
    rewrite Hrow. reflexivity.
  - intros quota d.
    assert (Hfetch' : fetched (with_sheet env (filter usable values)) =
                      Return (map professor_of_row (filter usable values))).
    { rewrite (fetched_eq (with_sheet env (filter usable values))
                 (filter usable values) eq_refl).
      rewrite filter_usable_idem. reflexivity. }
    unfold run_result, run. rewrite !main_quota_eq, Hfetch, Hfetch'.
    destruct (map professor_of_row (filter usable values)) as [| p ps] eqn:Hps.
    + split; reflexivity.
    + assert (Htrace : fetch_trace (with_sheet env (filter usable values)) =
                       fetch_trace env).
      { rewrite !fetch_trace_eq, Hsheet. cbn [sheet_values with_sheet].
        destruct (filter usable values) eqn:Hrows; [discriminate Hps |].
        destruct values; [discriminate Hrows | reflexivity]. }
      rewrite Htrace. split; reflexivity.
Qed.

Lemma short_rows_are_dropped_witness :
  sheet_values second_generation_fails = Return five_rows /\
  fetched second_generation_fails =
    Return
      [{| name := "Ada"; research_domain := "logic"; email := "ada@u.edu";
          university := "Unknown" |};
       Bob;
       {| name := "Cy"; research_domain := "types"; email := "cy@u.edu";
          university := "Unknown" |};
       {| name := "Di"; research_domain := "networks"; email := "di@u.edu";
          university := "ETH" |}].
Proof.
  split; [reflexivity |].
  exact (proj1 (short_rows_are_dropped second_generation_fails five_rows eq_refl)).
Defined.

(** ** Duplicate-free delivered list (C10) *)

(** C10: if [sent_emails] of the loaded status has no duplicates, neither
    has [sent_emails] of the status the run leaves. *)
Theorem run_preserves_NoDup quota env d st :
  persisted d = Return st ->
  NoDup (sent_emails st) ->
  exists st',
    persisted (run quota d env) = Return st' /\ NoDup (sent_emails st').
Proof.
  intros Hload Hnd.
  destruct (run_summary quota env d st Hload) as [st' [Hst' [_ [Hnd' _]]]].
  exists st'. auto.
Qed.

(** The same address at twelve positions, ten of them in one window. *)
Lemma run_preserves_NoDup_witness :
  persisted NoDir = Return default_status /\
  NoDup (sent_emails default_status) /\
  exists st',
    persisted (run EMAILS_PER_DAY NoDir twelve_rows_one_address) = Return st' /\
    NoDup (sent_emails st').
Proof.
  split; [reflexivity |]. split; [constructor |].
  apply (run_preserves_NoDup EMAILS_PER_DAY twelve_rows_one_address NoDir
           default_status).
  - reflexivity.
  - constructor.
Defined.

(** * Further properties of the script *)

(** ** Attempts, confirmed sends and pauses in a trace *)

Lemma attempted_app evs evs' :
  attempted (evs ++ evs') = attempted evs ++ attempted evs'.
Proof.
  induction evs as [| ev evs IH]; [reflexivity |].
  destruct ev; simpl; rewrite IH; reflexivity.
Qed.

Lemma sleeps_app evs evs' : sleeps (evs ++ evs') = sleeps evs ++ sleeps evs'.
Proof.
  induction evs as [| ev evs IH]; [reflexivity |].
  destruct ev; simpl; rewrite IH; reflexivity.
Qed.

Lemma accepted_app evs evs' :
  accepted (evs ++ evs') = accepted evs ++ accepted evs'.
Proof.
  induction evs as [| ev evs IH]; [reflexivity |].
  destruct ev; simpl; rewrite IH; reflexivity.
Qed.

Lemma housekeeping_silent evs :
  Forall housekeeping evs ->
  deliveries evs = [] /\ attempted evs = [] /\ sleeps evs = [].
Proof.
  induction 1 as [| ev evs Hev _ IH]; [auto |].
  destruct ev as [[] | | | | | | |]; simpl in *; try contradiction; exact IH.
Qed.

Lemma housekeeping_no_accepted evs :
  Forall housekeeping evs -> accepted evs = [].
Proof.
  induction 1 as [| ev evs Hev _ IH]; [reflexivity |].
  destruct ev; simpl in *; try contradiction; exact IH.
Qed.

Lemma setup_housekeeping env d :
  Forall housekeeping (fetch_trace env ++ load_trace d ++ read_cv_trace env).
Proof.
  rewrite fetch_trace_eq, load_trace_eq, read_cv_trace_eq.
  destruct (sheet_values env) as [[| row values] | e];
    destruct d as [| [f |]]; destruct (cv_file env); simpl;
    repeat constructor.
Qed.

Lemma fetch_trace_housekeeping env : Forall housekeeping (fetch_trace env).
Proof.
  rewrite fetch_trace_eq.
  destruct (sheet_values env) as [[| row values] | e]; repeat constructor.
Qed.

Lemma attempt_counts env p cv delivered evs :
  attempt env p cv delivered evs ->
  attempted evs = [p] /\ sleeps evs = if delivered then [30] else [].
Proof. intros H; destruct H; split; reflexivity. Qed.

(** The server takes at most one message in an attempt, and has taken one
    when [send_email] returns [True]. *)
Lemma attempt_accepted env p cv delivered evs :
  attempt env p cv delivered evs ->
  (accepted evs = [email p] \/ (accepted evs = [] /\ delivered = false)).
Proof. intros H; destruct H; auto. Qed.

(** The loop calls the generator once per attempt, on a contact at a
    position of its window, and pauses once after each [send_email] that
    returned [True]. *)
Lemma window_run_attempted env professors cv idx vars evs r :
  window_run env professors cv idx vars evs r ->
  (List.length (attempted evs) <= List.length idx)%nat /\
  (List.length (deliveries evs) <= List.length (attempted evs))%nat /\
  sleeps evs = repeat 30 (List.length (deliveries evs)) /\
  forall q, In q (attempted evs) ->
            exists i, In i idx /\ getitem professors i = Return q.
Proof.
  intros H. window_induction H.
  - simpl. repeat split; auto. intros q [].
  - simpl. repeat split; auto with arith. intros q [].
  - destruct IH as [Hlen [Hdel [Hsl Hpos]]]. cbn [List.length].
    repeat split; auto with arith.
    intros q Hq. destruct (Hpos q Hq) as [j [Hj Hgetj]].
    exists j. split; [right |]; assumption.
  - destruct IH as [Hlen [Hdel [Hsl Hpos]]].
    destruct (attempt_counts _ _ _ _ _ Hatt) as [Hatt1 Hatt2].
    rewrite attempted_app, deliveries_app, sleeps_app, Hatt1, Hatt2, Hsl,
      (attempt_deliveries _ _ _ _ _ Hatt).
    cbn [List.length app].
    repeat split.
    + auto with arith.
    + destruct delivered; cbn [List.length app]; auto with arith.
    + destruct delivered; reflexivity.
    + intros q [<- | Hq].
      * exists i. split; [left; reflexivity | exact Hget].
      * destruct (Hpos q Hq) as [j [Hj Hgetj]].
        exists j. split; [right |]; assumption.
Qed.

(** Of the messages the server took in the loop, [send_email] returned
    [True] for some, and each was taken in an attempt of its own. *)
Lemma window_run_accepted env professors cv idx vars evs r :
  window_run env professors cv idx vars evs r ->
  (List.length (deliveries evs) <= List.length (accepted evs))%nat /\
  (List.length (accepted evs) <= List.length (attempted evs))%nat.
Proof.
  intros H. window_induction H; try (split; reflexivity); [exact IH |].
  destruct (attempt_counts _ _ _ _ _ Hatt) as [Hatt1 _].
  rewrite attempted_app, deliveries_app, accepted_app, Hatt1,
    (attempt_deliveries _ _ _ _ _ Hatt), !length_app.
  destruct IH as [IH1 IH2].
  destruct (attempt_accepted _ _ _ _ _ Hatt) as [-> | [-> Hd]];
    destruct delivered; try discriminate; cbn [List.length]; lia.
Qed.

Lemma deliveries_addressee evs a :
  In a (deliveries evs) -> exists ev, In ev evs /\ addressee ev = Some a.
Proof.
  induction evs as [| ev evs IH]; [intros [] |].
  destruct ev as [[] | | | | | | |]; simpl; intros H;
    try (destruct (IH H) as [ev' [Hev' Ha]]; exists ev'; auto; fail).
  destruct H as [<- | H].
  - eexists. split; [left; reflexivity | reflexivity].
  - destruct (IH H) as [ev' [Hev' Ha]]. exists ev'. auto.
Qed.

(** The addresses [send_email] returns [True] for in the loop are pairwise
    different and none was in [sent_emails] when the loop started. *)
Lemma window_run_deliveries_fresh env professors cv idx vars evs r :
  window_run env professors cv idx vars evs r ->
  NoDup (deliveries evs) /\
  forall a, In a (deliveries evs) -> ~ In a (fst vars).
Proof.
  intros H. split.
  - window_induction H; try (constructor; fail); [exact IH |].
    rewrite deliveries_app, (attempt_deliveries _ _ _ _ _ Hatt).
    destruct delivered; [| exact IH]. cbn [app]. constructor; [| exact IH].
    intros Hdup. apply deliveries_addressee in Hdup.
    destruct Hdup as [ev [Hev Ha]].
    apply (window_run_addressee _ _ _ _ _ _ _ H ev (email p) Hev Ha).
    cbn [fst]. apply in_or_app. right. left. reflexivity.
  - intros a Ha. apply deliveries_addressee in Ha.
    destruct Ha as [ev [Hev Ha]].
    exact (window_run_addressee _ _ _ _ _ _ _ H ev a Hev Ha).
Qed.

(** The trace of any run: housekeeping, then the actions of the loop over
    the window (none if the run stopped before the loop), then
    housekeeping. *)
Lemma run_trace_shape quota env d :
  exists pre evs post,
    run_trace quota d env = pre ++ evs ++ post /\
    Forall housekeeping pre /\ Forall housekeeping post /\
    (evs = [] \/
     exists professors st r,
       fetched env = Return professors /\
       persisted d = Return st /\
       window_run env professors (cv_content_of env) (window quota st professors)
         (sent_emails st, 0) evs r).
Proof.
  destruct (fetched env) as [[| p ps] | e] eqn:Hfetch.
  - exists (fetch_trace env ++ [Stdout No_professor_data_found]), [], [].
    unfold run_trace. rewrite (main_quota_no_contacts _ _ _ Hfetch).
    cbn [snd log boot trace app]. rewrite app_nil_r.
    repeat split; auto.
    apply Forall_app. split; [apply fetch_trace_housekeeping |].
    repeat constructor.
  - destruct (persisted d) as [st | e] eqn:Hload.
    + destruct (main_quota_window quota env d p ps st Hfetch Hload)
        as [evs [r [Hrun Hr]]].
      exists (fetch_trace env ++ load_trace d ++ read_cv_trace env), evs.
      destruct r as [[sent n] | e]; destruct Hr as [_ [_ Htrace]].
      * eexists. split; [exact Htrace |].
        split; [apply setup_housekeeping |]. split; [repeat constructor |].
        right. exists (p :: ps), st, (Return (sent, n)). auto.
      * exists []. rewrite app_nil_r. split; [exact Htrace |].
        split; [apply setup_housekeeping |]. split; [constructor |].
        right. exists (p :: ps), st, (Raise e). auto.
    + exists (fetch_trace env ++ load_trace d), [], [].
      unfold run_trace. rewrite main_quota_eq, Hfetch. cbn [boot disk].
      rewrite Hload. cbn [snd log boot trace app]. rewrite app_nil_r.
      repeat split; auto.
      pose proof (setup_housekeeping env d) as Hs.
      rewrite app_assoc in Hs. apply Forall_app in Hs. apply Hs.
  - exists (fetch_trace env), [], [].
    unfold run_trace. rewrite (main_quota_fetch_raises _ _ _ _ Hfetch).
    cbn [snd log boot trace app]. rewrite app_nil_r.
    repeat split; auto. apply fetch_trace_housekeeping.
Qed.

(** What counts in a trace is in its loop part. *)
Lemma loop_part pre evs post :
  Forall housekeeping pre -> Forall housekeeping post ->
  deliveries (pre ++ evs ++ post) = deliveries evs /\
  attempted (pre ++ evs ++ post) = attempted evs /\
  sleeps (pre ++ evs ++ post) = sleeps evs.
Proof.
  intros Hpre Hpost.
  destruct (housekeeping_silent pre Hpre) as [Hd [Ha Hs]].
  destruct (housekeeping_silent post Hpost) as [Hd' [Ha' Hs']].
  rewrite !deliveries_app, !attempted_app, !sleeps_app,
    Hd, Ha, Hs, Hd', Ha', Hs', !app_nil_r.
  auto.
Qed.

Lemma range_short start quota bound :
  (List.length (range start (Z.min (start + quota) bound)) <= Z.to_nat quota)%nat.
Proof. unfold range. rewrite length_map, length_seq. lia. Qed.

Lemma run_deliveries_NoDup quota env d :
  NoDup (deliveries (run_trace quota d env)).
Proof.
  destruct (run_trace_shape quota env d)
    as [pre [evs [post [-> [Hpre [Hpost Hevs]]]]]].
  destruct (loop_part pre evs post Hpre Hpost) as [-> _].
  destruct Hevs as [-> | [professors [st [r [_ [_ Hrun]]]]]]; [constructor |].
  apply (window_run_deliveries_fresh _ _ _ _ _ _ _ Hrun).
Qed.

Lemma run_deliveries_fresh quota env d st a :
  persisted d = Return st ->
  In a (deliveries (run_trace quota d env)) -> ~ In a (sent_emails st).
Proof.
  intros Hload Ha. apply deliveries_addressee in Ha.
  destruct Ha as [ev [Hev Ha]].
  destruct (run_summary quota env d st Hload) as [st' [_ [_ [_ Hno]]]].
  exact (Hno ev a Hev Ha).
Qed.

Lemma loop_part_accepted pre evs post :
  Forall housekeeping pre -> Forall housekeeping post ->
  accepted (pre ++ evs ++ post) = accepted evs.
Proof.
  intros Hpre Hpost.
  rewrite !accepted_app, (housekeeping_no_accepted pre Hpre),
    (housekeeping_no_accepted post Hpost), app_nil_r.
  reflexivity.
Qed.

(** The messages the server took in a run, between the sends that returned
    [True] and the attempts. *)
Lemma run_accepted_bounds quota env d :
  len (deliveries (run_trace quota d env)) <=
    len (accepted (run_trace quota d env)) /\
  len (accepted (run_trace quota d env)) <=
    len (attempted (run_trace quota d env)).
Proof.
  destruct (run_trace_shape quota env d)
    as [pre [evs [post [-> [Hpre [Hpost Hevs]]]]]].
  rewrite (loop_part_accepted pre evs post Hpre Hpost).
  destruct (loop_part pre evs post Hpre Hpost) as [-> [-> _]].
  destruct Hevs as [-> | [professors [st [r [_ [_ Hrun]]]]]];
    [split; reflexivity |].
  destruct (window_run_accepted _ _ _ _ _ _ _ Hrun) as [Hconfirmed Htaken].
  unfold len. lia.
Qed.

(** ** The quota and the window *)

(** X1: whatever is on the disk and whatever the services answer, a run calls
    the generator at most [quota] times (never, for a quota that is not
    positive), and delivers at most as many messages as it generated. *)
Theorem run_within_quota quota env d :
  len (attempted (run_trace quota d env)) <= Z.max 0 quota /\
  len (deliveries (run_trace quota d env)) <=
    len (attempted (run_trace quota d env)).
Proof.
  destruct (run_trace_shape quota env d)
    as [pre [evs [post [-> [Hpre [Hpost Hevs]]]]]].
  destruct (loop_part pre evs post Hpre Hpost) as [-> [-> _]].
  destruct Hevs as [-> | [professors [st [r [_ [_ Hrun]]]]]].
  - unfold len. simpl. lia.
  - destruct (window_run_attempted _ _ _ _ _ _ _ Hrun) as [Hlen [Hdel _]].
    pose proof (range_short (last_index st) quota (len professors)) as Hw.
    unfold window in Hlen. unfold len. lia.
Qed.

(** X2: every contact a run calls the generator for sits at a position of
    the window [last_index <= i < min(last_index + quota, len)] of the
    fetched list, for the [last_index] the run loaded. *)
Theorem attempts_are_in_the_window quota env d q :
  In q (attempted (run_trace quota d env)) ->
  exists professors st i,
    fetched env = Return professors /\
    persisted d = Return st /\
    last_index st <= i < Z.min (last_index st + quota) (len professors) /\
    getitem professors i = Return q.
Proof.
  destruct (run_trace_shape quota env d)
    as [pre [evs [post [-> [Hpre [Hpost Hevs]]]]]].
  destruct (loop_part pre evs post Hpre Hpost) as [_ [-> _]].
  destruct Hevs as [-> | [professors [st [r [Hfetch [Hload Hrun]]]]]];
    [intros [] |].
  intros Hq.
  destruct (window_run_attempted _ _ _ _ _ _ _ Hrun) as [_ [_ [_ Hpos]]].
  destruct (Hpos q Hq) as [i [Hi Hget]].
  exists professors, st, i. apply in_range in Hi. auto.
Qed.

Lemma attempts_are_in_the_window_witness :
  In Bob (attempted (run_trace 3 NoDir second_generation_fails)) /\
  exists professors st i,
    fetched second_generation_fails = Return professors /\
    persisted NoDir = Return st /\
    last_index st <= i < Z.min (last_index st + 3) (len professors) /\
    getitem professors i = Return Bob.
Proof.
  assert (H : In Bob (attempted (run_trace 3 NoDir second_generation_fails))).
  { vm_compute. right. left. reflexivity. }
  split; [exact H |].
  exact (attempts_are_in_the_window 3 second_generation_fails NoDir Bob H).
Defined.

Lemma paced_from_app pending evs evs' :
  paced_from pending evs = true ->
  paced_from pending (evs ++ evs') = paced_from false evs'.
Proof.
  revert pending. induction evs as [| ev evs IH]; intros pending H.
  - destruct pending; [discriminate | reflexivity].
  - cbn [app paced_from] in *.
    destruct ev as [[] | | | | | | |];
      apply andb_prop in H; destruct H as [H1 H2];
      rewrite H1, (IH _ H2); reflexivity.
Qed.

Lemma housekeeping_paced evs :
  Forall housekeeping evs -> paced_from false evs = true.
Proof.
  induction 1 as [| ev evs Hev _ IH]; [reflexivity |].
  destruct ev as [[] | | | | | | |]; simpl in *; try contradiction; exact IH.
Qed.

Lemma window_run_paced env professors cv idx vars evs r :
  window_run env professors cv idx vars evs r -> paced_from false evs = true.
Proof.
  intros H. window_induction H; try reflexivity; [exact IH |].
  rewrite paced_from_app; [exact IH |]. destruct Hatt; reflexivity.
Qed.

(** X3: in a run every pause lasts 30 seconds and is the action right after
    an "Email sent to" line, and every such line is followed at once by a
    pause: the run pauses once after each [send_email] that returned [True]
    and at no other time.  A message the server took in a session that then
    raised is followed by an error line and no pause. *)
Theorem pauses_follow_confirmed_sends quota env d :
  paced_from false (run_trace quota d env) = true /\
  sleeps (run_trace quota d env) =
  repeat 30 (List.length (deliveries (run_trace quota d env))).
Proof.
  destruct (run_trace_shape quota env d)
    as [pre [evs [post [-> [Hpre [Hpost Hevs]]]]]].
  destruct (loop_part pre evs post Hpre Hpost) as [-> [_ ->]].
  rewrite (paced_from_app false pre) by (apply housekeeping_paced, Hpre).
  destruct Hevs as [-> | [professors [st [r [_ [_ Hrun]]]]]].
  - split; [apply housekeeping_paced, Hpost | reflexivity].
  - rewrite (paced_from_app false evs)
      by exact (window_run_paced _ _ _ _ _ _ _ Hrun).
    split; [apply housekeeping_paced, Hpost |].
    apply (window_run_attempted _ _ _ _ _ _ _ Hrun).
Qed.

(** ** No address confirmed twice *)

(** X4: over any sequence of runs that starts from a loadable status, the
    status persisted at the end lists the loaded addresses followed by every
    address [send_email] returned [True] for, in order; [send_email] returns
    [True] for no address twice over the whole sequence, and for none that
    the first run found in [sent_emails]. *)
Theorem no_address_confirmed_twice quota envs d st :
  persisted d = Return st ->
  exists st',
    persisted (runs quota d envs) = Return st' /\
    sent_emails st' = sent_emails st ++ runs_deliveries quota d envs /\
    NoDup (runs_deliveries quota d envs) /\
    forall a, In a (runs_deliveries quota d envs) -> ~ In a (sent_emails st).
Proof.
  revert d st.
  induction envs as [| env envs IH]; intros d st Hload.
  - exists st. cbn [runs fold_left runs_deliveries]. rewrite app_nil_r.
    repeat split; [exact Hload | constructor | intros a []].
  - destruct (run_summary quota env d st Hload) as [st1 [Hload1 [Hsent1 _]]].
    destruct (IH (run quota d env) st1 Hload1)
      as [st' [Hload' [Hsent' [Hnd Hfresh]]]].
    exists st'. cbn [runs fold_left runs_deliveries].
    split; [exact Hload' |].
    split; [rewrite Hsent', Hsent1; symmetry; apply app_assoc |].
    split.
    + apply NoDup_app; [apply run_deliveries_NoDup | exact Hnd |].
      intros a Ha Ha'. apply (Hfresh a Ha'). rewrite Hsent1.
      apply in_or_app. right. exact Ha.
    + intros a Ha. apply in_app_or in Ha. destruct Ha as [Ha | Ha].
      * exact (run_deliveries_fresh quota env d st a Hload Ha).
      * intros Hin. apply (Hfresh a Ha). rewrite Hsent1.
        apply in_or_app. left. exact Hin.
Qed.

Lemma no_address_confirmed_twice_witness :
  persisted (Dir (Some (Dumped ada_delivered))) = Return ada_delivered /\
  exists st',
    persisted (runs 3 (Dir (Some (Dumped ada_delivered)))
                 [second_generation_fails; second_generation_fails]) = Return st' /\
    sent_emails st' =
      ["ada@u.edu"] ++
      runs_deliveries 3 (Dir (Some (Dumped ada_delivered)))
        [second_generation_fails; second_generation_fails] /\
    NoDup (runs_deliveries 3 (Dir (Some (Dumped ada_delivered)))
             [second_generation_fails; second_generation_fails]) /\
    forall a,
      In a (runs_deliveries 3 (Dir (Some (Dumped ada_delivered)))
              [second_generation_fails; second_generation_fails]) ->
      ~ In a ["ada@u.edu"].
Proof.
  split; [reflexivity |].
  exact (no_address_confirmed_twice 3
           [second_generation_fails; second_generation_fails]
           (Dir (Some (Dumped ada_delivered))) ada_delivered eq_refl).
Defined.

(** ** A run without the CV file *)

(** Without the CV file an iteration changes neither local, and neither
    does the mail server take a message nor [send_email] return [True]:
    [send_email] raises before it reaches the mail server. *)
Lemma loop_body_without_cv env professors cv vars i w :
  cv_file env = None ->
  post (loop_body env professors cv vars i) w
    (fun vars' w' =>
       vars' = vars /\ deliveries (trace w') = deliveries (trace w) /\
       accepted (trace w') = accepted (trace w))
    (fun _ w' =>
       deliveries (trace w') = deliveries (trace w) /\
       accepted (trace w') = accepted (trace w)).
Proof.
  intros Hcv. destruct vars as [sent n].
  unfold post, loop_body, bind at 1, lift.
  destruct (getitem professors i) as [p | e]; [| split; reflexivity].
  destruct (py_in (email p) sent); [repeat split; reflexivity |].
  unfold try_except, generate_email_content, send_email, json_loads, print,
    bind, lift, emit, next_call.
  rewrite Hcv. answer_services env.
  all: cbn [disk calls trace fst snd MIMEText ret raise];
    rewrite ?deliveries_app, ?accepted_app; cbn [deliveries accepted];
    rewrite ?app_nil_r; repeat split; reflexivity.
Qed.

Lemma for_each_without_cv env professors cv idx vars w :
  cv_file env = None ->
  post (for_each idx (loop_body env professors cv) vars) w
    (fun vars' w' =>
       vars' = vars /\ deliveries (trace w') = deliveries (trace w) /\
       accepted (trace w') = accepted (trace w))
    (fun _ w' =>
       deliveries (trace w') = deliveries (trace w) /\
       accepted (trace w') = accepted (trace w)).
Proof.
  intros Hcv.
  apply (post_for_each
           (fun vars' w' =>
              vars' = vars /\ deliveries (trace w') = deliveries (trace w) /\
              accepted (trace w') = accepted (trace w))
           (fun _ w' =>
              deliveries (trace w') = deliveries (trace w) /\
              accepted (trace w') = accepted (trace w))).
  - intros vars' i w' _ [-> [Hd Ha]].
    eapply post_weaken; [apply (loop_body_without_cv _ _ _ _ _ _ Hcv) | |].
    + intros vars'' w'' [-> [Hd' Ha']]. repeat split; congruence.
    + intros e w'' [Hd' Ha']. cbv beta. split; congruence.
  - repeat split; reflexivity.
Qed.

Lemma run_without_cv quota env d :
  cv_file env = None ->
  deliveries (run_trace quota d env) = [] /\
  accepted (run_trace quota d env) = [].
Proof.
  intros Hcv. unfold run_trace. rewrite main_quota_eq.
  destruct (fetched env) as [[| p ps] | e] eqn:Hfetch; cbn [snd log boot trace app].
  - assert (Hk : Forall housekeeping
                   (fetch_trace env ++ [Stdout No_professor_data_found])).
    { apply Forall_app.
      split; [apply fetch_trace_housekeeping | repeat constructor]. }
    split; [apply housekeeping_silent | apply housekeeping_no_accepted];
      exact Hk.
  - cbn [boot disk]. destruct (persisted d) as [st | e] eqn:Hload.
    + cbv zeta.
      pose proof (for_each_without_cv env (p :: ps) (cv_content_of env)
                    (range (last_index st)
                       (Z.min (last_index st + quota) (len (p :: ps))))
                    (sent_emails st, 0)
                    (log (fetch_trace env ++ load_trace d ++ read_cv_trace env)
                       (boot d)) Hcv) as Hloop.
      unfold post in Hloop.
      pose proof (setup_housekeeping env d) as Hs.
      destruct (for_each _ _ _ _) as [[[sent n] | e] w'];
        cbn [snd trace log boot app] in *.
      * destruct Hloop as [_ [Hd Ha]].
        rewrite deliveries_app, accepted_app, Hd, Ha,
          (proj1 (housekeeping_silent _ Hs)), (housekeeping_no_accepted _ Hs).
        split; reflexivity.
      * destruct Hloop as [Hd Ha]. rewrite Hd, Ha.
        split; [apply housekeeping_silent | apply housekeeping_no_accepted];
          exact Hs.
    + cbn [snd log boot trace app].
      pose proof (setup_housekeeping env d) as Hs.
      rewrite app_assoc in Hs. apply Forall_app in Hs.
      split; [apply housekeeping_silent | apply housekeeping_no_accepted];
        apply Hs.
  - split; [apply housekeeping_silent | apply housekeeping_no_accepted];
      apply fetch_trace_housekeeping.
Qed.

(** X5: when the CV file is missing, [read_cv] hides the error and the run
    goes on: it ends normally and delivers nothing, yet it saves
    [last_index = min(last_index + quota, len)] with [sent_emails]
    unchanged, so the contacts of the window are passed over. *)
Theorem missing_cv_passes_the_window_over quota env d p ps st :
  cv_file env = None ->
  fetched env = Return (p :: ps) ->
  persisted d = Return st ->
  0 <= last_index st ->
  run_result quota d env = Return tt /\
  deliveries (run_trace quota d env) = [] /\
  run quota d env =
    Dir (Some (Dumped
      {| last_index := Z.min (last_index st + quota) (len (p :: ps));
         sent_emails := sent_emails st |})).
Proof.
  intros Hcv Hfetch Hload Hstart.
  destruct (run_advances quota env d p ps st Hfetch Hload) as [Hres Hdisk].
  { left. unfold len. lia. }
  destruct (run_without_cv quota env d Hcv) as [Hnone _].
  rewrite Hnone, app_nil_r in Hdisk. auto.
Qed.

Lemma missing_cv_passes_the_window_over_witness :
  cv_file cv_missing = None /\
  persisted NoDir = Return default_status /\
  len (attempted (run_trace 3 NoDir cv_missing)) = 3 /\
  run 3 NoDir cv_missing =
    Dir (Some (Dumped {| last_index := 3; sent_emails := [] |})).
Proof.
  split; [reflexivity |]. split; [reflexivity |]. split; [reflexivity |].
  exact (proj2 (proj2 (missing_cv_passes_the_window_over
                         3 cv_missing NoDir _ _ default_status
                         eq_refl eq_refl eq_refl (Z.le_refl 0)))).
Defined.

(** ** The summary line *)

(** X6: a run that ends normally on a non-empty contact list prints last the
    summary line, whose count is the number of times [send_email] returned
    [True] in the run and whose index is the [last_index] the run persisted.
    The count does not exceed the number of messages the mail server took,
    and is less when a session raised after the server took the message. *)
Theorem summary_line_counts_confirmed_sends quota env d p ps st :
  fetched env = Return (p :: ps) ->
  persisted d = Return st ->
  run_result quota d env = Return tt ->
  (exists pre st',
     persisted (run quota d env) = Return st' /\
     run_trace quota d env =
       pre ++ [Stdout (Sent_emails_Next_start_index
                         (len (deliveries (run_trace quota d env)))
                         (last_index st'))]) /\
  len (deliveries (run_trace quota d env)) <=
    len (accepted (run_trace quota d env)).
Proof.
  intros Hfetch Hload Hres. split; [| apply run_accepted_bounds].
  destruct (main_quota_window quota env d p ps st Hfetch Hload)
    as [evs [[[sent n] | e] [Hrun Hr]]].
  - destruct Hr as [_ [Hdisk Htrace]].
    destruct (window_run_sent _ _ _ _ _ _ _ Hrun) as [_ Hn].
    cbn [fst snd] in Hn.
    assert (Hdel : deliveries (run_trace quota d env) = deliveries evs).
    { rewrite Htrace.
      apply (loop_part _ evs); [apply setup_housekeeping | repeat constructor]. }
    eexists. eexists. rewrite Hdisk. split; [apply persisted_Dumped |].
    rewrite Hdel. cbn [last_index]. rewrite Htrace.
    replace n with (len (deliveries evs)) by lia.
    rewrite !app_assoc.
    change [Makedirs; Open_status_file mode_w;
            Stdout (Sent_emails_Next_start_index (len (deliveries evs))
                      (Z.min (last_index st + quota) (len (p :: ps))))]
      with ([Makedirs; Open_status_file mode_w] ++
            [Stdout (Sent_emails_Next_start_index (len (deliveries evs))
                       (Z.min (last_index st + quota) (len (p :: ps))))]).
    rewrite app_assoc. reflexivity.
  - destruct Hr as [Hraise _]. congruence.
Qed.

Lemma summary_line_counts_confirmed_sends_witness :
  persisted NoDir = Return default_status /\
  run_result EMAILS_PER_DAY NoDir first_quit_fails = Return tt /\
  (exists pre st',
     persisted (run EMAILS_PER_DAY NoDir first_quit_fails) = Return st' /\
     run_trace EMAILS_PER_DAY NoDir first_quit_fails =
       pre ++ [Stdout (Sent_emails_Next_start_index
                         (len (deliveries
                                 (run_trace EMAILS_PER_DAY NoDir first_quit_fails)))
                         (last_index st'))]) /\
  len (deliveries (run_trace EMAILS_PER_DAY NoDir first_quit_fails)) = 1 /\
  len (accepted (run_trace EMAILS_PER_DAY NoDir first_quit_fails)) = 2.
Proof.
  split; [reflexivity |]. split; [reflexivity |].
  split; [| split; reflexivity].
  exact (proj1 (summary_line_counts_confirmed_sends EMAILS_PER_DAY
                  first_quit_fails NoDir _ _ default_status
                  eq_refl eq_refl eq_refl)).
Defined.

(** ** Runs that stop early *)

Lemma fetched_raises env e :
  sheet_values env = Raise e -> fetched env = Raise e.
Proof.
  intros H. unfold fetched, get_professor_data, bind, emit, lift.
  cbn [boot disk calls trace]. rewrite H. reflexivity.
Qed.

Lemma run_load_raises quota env d e :
  persisted d = Raise e ->
  run quota d env = d /\ deliveries (run_trace quota d env) = [].
Proof.
  intros Hload. split.
  - unfold run. rewrite main_quota_eq.
    destruct (fetched env) as [[| p ps] | e0]; try reflexivity.
    cbn [boot disk]. rewrite Hload. reflexivity.
  - destruct (run_trace_shape quota env d)
      as [pre [evs [post [-> [Hpre [Hpost Hevs]]]]]].
    destruct (loop_part pre evs post Hpre Hpost) as [-> _].
    destruct Hevs as [-> | [professors [st [r [_ [Hst _]]]]]];
      [reflexivity | congruence].
Qed.

(** X7: a status file that cannot be parsed is never repaired: a run that
    fetched contacts raises the parser's exception, and over any sequence of
    runs the disk stays as it is and nothing is delivered. *)
Theorem unparsable_status_blocks_every_run quota d e :
  persisted d = Raise e ->
  (forall env p ps,
     fetched env = Return (p :: ps) -> run_result quota d env = Raise e) /\
  forall envs,
    runs quota d envs = d /\ runs_deliveries quota d envs = [].
Proof.
  intros Hload. split.
  - intros env p ps Hfetch. unfold run_result.
    rewrite main_quota_eq, Hfetch. cbn [boot disk]. rewrite Hload. reflexivity.
  - intros envs. induction envs as [| env envs IH]; [split; reflexivity |].
    cbn [runs fold_left runs_deliveries].
    destruct (run_load_raises quota env d e Hload) as [-> ->]. exact IH.
Qed.

Lemma unparsable_status_blocks_every_run_witness :
  persisted (Dir (Some (Garbled "{"))) = Raise JSONDecodeError /\
  run_result EMAILS_PER_DAY (Dir (Some (Garbled "{"))) five_contacts =
    Raise JSONDecodeError /\
  runs EMAILS_PER_DAY (Dir (Some (Garbled "{"))) [five_contacts; five_contacts] =
    Dir (Some (Garbled "{")).
Proof.
  split; [reflexivity |].
  pose proof (unparsable_status_blocks_every_run EMAILS_PER_DAY
                (Dir (Some (Garbled "{"))) JSONDecodeError eq_refl) as [Hres Hruns].
  split.
  - exact (Hres five_contacts _ _ eq_refl).
  - exact (proj1 (Hruns [five_contacts; five_contacts])).
Defined.

(** X8: when the Sheets request raises, [main] raises the same exception
    right after the request: nothing is printed, the status file is not
    opened and the disk is left as it was. *)
Theorem sheet_failure_is_fatal quota env w e :
  sheet_values env = Raise e ->
  main_quota quota env w = (Raise e, log [Sheets_get] w).
Proof.
  intros Hsheet.
  rewrite (main_quota_fetch_raises quota env e w (fetched_raises env e Hsheet)).
  rewrite fetch_trace_eq, Hsheet. reflexivity.
Qed.

Lemma sheet_failure_is_fatal_witness :
  sheet_values sheet_unreachable = Raise (HttpError "503") /\
  main sheet_unreachable (boot NoDir) =
    (Raise (HttpError "503"), log [Sheets_get] (boot NoDir)).
Proof.
  split; [reflexivity |].
  exact (sheet_failure_is_fatal EMAILS_PER_DAY sheet_unreachable (boot NoDir)
           (HttpError "503") eq_refl).
Defined.

(** X9: [get_professor_data] returns no contact exactly when no row of the
    sheet has three cells, so exactly then [main] stops with "No professor
    data found" and an empty sheet is not told apart from a sheet of short
    rows. *)
Theorem no_contacts_iff_no_usable_row env values :
  sheet_values env = Return values ->
  (fetched env = Return [] <-> forall row, In row values -> len row < 3).
Proof.
  intros Hsheet. rewrite (fetched_eq env values Hsheet). split.
  - intros Hnil row Hrow.
    destruct (Z.leb_spec 3 (len row)) as [Hlong | Hshort]; [| exact Hshort].
    assert (Hin : In (professor_of_row row)
                     (map professor_of_row (filter usable values))).
    { apply in_map, filter_In. split; [exact Hrow |].
      unfold usable. apply Z.leb_le. exact Hlong. }
    injection Hnil as Hnil. rewrite Hnil in Hin. contradiction.
  - intros Hshort. f_equal. clear Hsheet.
    induction values as [| row values IH]; [reflexivity |].
    cbn [filter]. unfold usable at 1.
    destruct (Z.leb_spec 3 (len row)) as [Hlong | _].
    + specialize (Hshort row (or_introl eq_refl)). lia.
    + apply IH. intros r Hr. apply Hshort. right. exact Hr.
Qed.

Lemma no_contacts_iff_no_usable_row_witness :
  sheet_values (with_sheet no_sheet [["only"; "two"]; []]) =
    Return [["only"; "two"]; []] /\
  fetched (with_sheet no_sheet [["only"; "two"]; []]) = Return [].
Proof.
  split; [reflexivity |].
  apply (proj2 (no_contacts_iff_no_usable_row
                  (with_sheet no_sheet [["only"; "two"]; []])
                  [["only"; "two"]; []] eq_refl)).
  intros row [<- | [<- | []]]; reflexivity.
Defined.

(** ** A [last_index] outside the list *)

(** X10: a loaded [last_index] below [-len] makes [professors[i]] raise
    [IndexError] at the first position of the window, outside the [try]
    block: the run raises before any attempt and saves nothing. *)
Theorem last_index_below_the_list_raises quota env d p ps st :
  0 < quota ->
  fetched env = Return (p :: ps) ->
  persisted d = Return st ->
  last_index st < - len (p :: ps) ->
  run_result quota d env = Raise IndexError /\
  run quota d env = d /\
  attempted (run_trace quota d env) = [].
Proof.
  intros Hq Hfetch Hload Hlow.
  destruct (main_quota_window quota env d p ps st Hfetch Hload)
    as [evs [r [Hrun Hr]]].
  assert (Hlen : 0 <= len (p :: ps)) by (unfold len; lia).
  rewrite range_cons in Hrun by lia.
  pose proof (getitem_raise (p :: ps) (last_index st) Hlow) as Hget.
  inversion Hrun; subst; try congruence.
  destruct Hr as [Hres [Hdisk Htrace]].
  split; [exact Hres |]. split; [exact Hdisk |].
  rewrite Htrace, app_nil_r.
  apply housekeeping_silent, setup_housekeeping.
Qed.

Lemma last_index_below_the_list_raises_witness :
  0 < EMAILS_PER_DAY /\
  persisted (Dir (Some (Dumped far_below))) = Return far_below /\
  last_index far_below < - 5 /\
  run_result EMAILS_PER_DAY (Dir (Some (Dumped far_below))) five_contacts =
    Raise IndexError.
Proof.
  split; [reflexivity |]. split; [reflexivity |]. split; [reflexivity |].
  exact (proj1 (last_index_below_the_list_raises EMAILS_PER_DAY five_contacts
                  (Dir (Some (Dumped far_below))) _ _ far_below
                  eq_refl eq_refl eq_refl eq_refl)).
Defined.

(** X11: a loaded [last_index] at or beyond the end of the fetched list
    gives an empty window: the run attempts nothing, ends normally and
    saves the length of the list as [last_index], with [sent_emails]
    unchanged. *)
Theorem last_index_beyond_the_list_is_clamped quota env d p ps st :
  0 <= quota ->
  fetched env = Return (p :: ps) ->
  persisted d = Return st ->
  len (p :: ps) <= last_index st ->
  run_result quota d env = Return tt /\
  attempted (run_trace quota d env) = [] /\
  run quota d env =
    Dir (Some (Dumped {| last_index := len (p :: ps);
                         sent_emails := sent_emails st |})).
Proof.
  intros Hq Hfetch Hload Hhigh.
  destruct (main_quota_window quota env d p ps st Hfetch Hload)
    as [evs [r [Hrun Hr]]].
  replace (Z.min (last_index st + quota) (len (p :: ps)))
    with (len (p :: ps)) in * by lia.
  rewrite range_empty in Hrun by lia.
  inversion Hrun; subst. destruct Hr as [Hres [Hdisk Htrace]].
  split; [exact Hres |]. split; [| exact Hdisk].
  rewrite Htrace.
  apply (loop_part _ []); [apply setup_housekeeping | repeat constructor].
Qed.

Lemma last_index_beyond_the_list_is_clamped_witness :
  0 <= EMAILS_PER_DAY /\
  persisted (Dir (Some (Dumped {| last_index := 10; sent_emails := ["ada@u.edu"] |}))) =
    Return {| last_index := 10; sent_emails := ["ada@u.edu"] |} /\
  run EMAILS_PER_DAY
      (Dir (Some (Dumped {| last_index := 10; sent_emails := ["ada@u.edu"] |})))
      five_contacts =
    Dir (Some (Dumped {| last_index := 5; sent_emails := ["ada@u.edu"] |})).
Proof.
  split; [discriminate |]. split; [reflexivity |].
  exact (proj2 (proj2 (last_index_beyond_the_list_is_clamped EMAILS_PER_DAY
                         five_contacts
                         (Dir (Some (Dumped {| last_index := 10;
                                               sent_emails := ["ada@u.edu"] |})))
                         _ _
                         {| last_index := 10; sent_emails := ["ada@u.edu"] |}
                         ltac:(discriminate) eq_refl eq_refl
                         ltac:(discriminate)))).
Defined.

(** ** The collaborators' adapters *)

Lemma housekeeping_no_generation evs p cv :
  Forall housekeeping evs -> ~ In (Call_generate_email_content p cv) evs.
Proof.
  intros H Hin. rewrite Forall_forall in H. exact (H _ Hin).
Qed.

Lemma window_run_cv env professors cv idx vars evs r q cv_content :
  window_run env professors cv idx vars evs r ->
  In (Call_generate_email_content q cv_content) evs -> cv_content = cv.
Proof.
  intros H. window_induction H; try (intros []; fail); [exact IH |].
  intros Hcall. apply in_app_or in Hcall. destruct Hcall as [Hcall | Hcall];
    [| exact (IH Hcall)].
  destruct Hatt; simpl in Hcall;
    repeat (destruct Hcall as [Heq | Hcall]; [try discriminate |]);
    try contradiction; congruence.
Qed.

(** X12: the CV is read once, before the loop, and every call of the
    generator in a run gets the text [read_cv] returned then: the first 5000
    bytes of the CV file decoded with the invalid ones dropped or, when the
    file cannot be read, the fixed error text, which the generator is then
    given as the CV highlights. *)
Theorem generator_gets_what_read_cv_returned quota env d p cv_content :
  In (Call_generate_email_content p cv_content) (run_trace quota d env) ->
  cv_content =
    match cv_file env with
    | Some cv => utf8_decode_ignore env (substring 0 5000 cv)
    | None =>
        "CV could not be read. Please ensure it exists at the specified path."
    end.
Proof.
  destruct (run_trace_shape quota env d)
    as [pre [evs [post [-> [Hpre [Hpost Hevs]]]]]].
  intros Hin. apply in_app_or in Hin. destruct Hin as [Hin | Hin].
  { destruct (housekeeping_no_generation pre _ _ Hpre Hin). }
  apply in_app_or in Hin. destruct Hin as [Hin | Hin].
  2:{ destruct (housekeeping_no_generation post _ _ Hpost Hin). }
  destruct Hevs as [-> | [professors [st [r [_ [_ Hrun]]]]]]; [destruct Hin |].
  rewrite (window_run_cv _ _ _ _ _ _ _ _ _ Hrun Hin).
  unfold cv_content_of, read_cv.
  destruct (cv_file env) as [cv |]; reflexivity.
Qed.

Lemma generator_gets_what_read_cv_returned_witness :
  In (Call_generate_email_content Ada
        "CV could not be read. Please ensure it exists at the specified path.")
     (run_trace 3 NoDir cv_missing) /\
  "CV could not be read. Please ensure it exists at the specified path." =
    match cv_file cv_missing with
    | Some cv => utf8_decode_ignore cv_missing (substring 0 5000 cv)
    | None =>
        "CV could not be read. Please ensure it exists at the specified path."
    end.
Proof.
  assert (H : In (Call_generate_email_content Ada
                    "CV could not be read. Please ensure it exists at the specified path.")
                 (run_trace 3 NoDir cv_missing)).
  { vm_compute. do 2 right. left. reflexivity. }
  split; [exact H |].
  exact (generator_gets_what_read_cv_returned 3 cv_missing NoDir Ada _ H).
Defined.

Lemma dict_get_raise d key e : dict_get d key = Raise e -> e = KeyError key.
Proof.
  induction d as [| [k v] d IH]; cbn [dict_get].
  - congruence.
  - destruct (dict_get d key) as [v' | e']; [discriminate |].
    destruct (String.eqb k key); [discriminate | congruence].
Qed.

Lemma dict_get_none d key :
  (forall v, ~ In (key, v) d) -> dict_get d key = Raise (KeyError key).
Proof.
  induction d as [| [k v0] d IH]; intros Hnone; [reflexivity |].
  cbn [dict_get]. rewrite IH by (intros v Hin; apply (Hnone v); right; exact Hin).
  destruct (String.eqb k key) eqn:Hk; [| reflexivity].
  apply String.eqb_eq in Hk. subst k.
  destruct (Hnone v0). left. reflexivity.
Qed.

Lemma dict_get_absent d key e :
  dict_get d key = Raise e -> forall v, ~ In (key, v) d.
Proof.
  revert e. induction d as [| [k v0] d IH]; intros e; cbn [dict_get];
    [intros _ v [] |].
  destruct (dict_get d key) as [v' | e']; [discriminate |].
  destruct (String.eqb k key) eqn:Hk; [discriminate |].
  intros _ v [[= -> _] | Hin].
  - rewrite String.eqb_refl in Hk. discriminate.
  - exact (IH e' eq_refl v Hin).
Qed.

(** When a name occurs more than once among the members of an object, the
    dict holds the value of its last occurrence. *)
Lemma dict_get_last d key v :
  dict_get d key = Return v <-> last_member d key v.
Proof.
  split.
  - induction d as [| [k v0] d IH]; cbn [dict_get]; [discriminate |].
    destruct (dict_get d key) as [v' | e'] eqn:Hget.
    + intros [= <-]. destruct (IH eq_refl) as [before [after [-> Hlast]]].
      exists ((k, v0) :: before), after. split; [reflexivity | exact Hlast].
    + destruct (String.eqb k key) eqn:Hk; [| discriminate].
      intros [= <-]. apply String.eqb_eq in Hk. subst k.
      exists [], d. split; [reflexivity |].
      exact (dict_get_absent _ _ _ Hget).
  - intros [before [after [-> Hlast]]].
    induction before as [| [k v0] before IH].
    + cbn [app dict_get]. rewrite (dict_get_none _ _ Hlast), String.eqb_refl.
      reflexivity.
    + cbn [app dict_get]. rewrite IH. reflexivity.
Qed.

(** X13: [generate_email_content] makes exactly one service call whatever
    comes of it and touches nothing else.  It returns [(subject, body)]
    exactly when the reply parses to a JSON object that has both names,
    with the values of their last occurrences, whatever JSON values these
    are, text or not.  Otherwise it raises: the service's own exception;
    [TypeError] for a reply without content and for JSON that is not an
    object; [JSONDecodeError] for content that is not JSON; [KeyError] for
    the first name that no member has. *)
Theorem generate_email_content_outcomes env p cv w :
  snd (generate_email_content env p cv w) =
    {| disk := disk w; calls := S (calls w);
       trace := trace w ++ [Call_generate_email_content p cv] |} /\
  (forall subject body,
     fst (generate_email_content env p cv w) = Return (subject, body) <->
     exists members,
       chat_completions_create env (calls w)
         {| model := "gpt-3.5-turbo";
            prompt_name := name p;
            prompt_research_domain := research_domain p;
            prompt_university := university p;
            prompt_cv_highlights := substring 0 500 cv |} =
         Return (Json (JObject members)) /\
       last_member members "subject" subject /\
       last_member members "body" body) /\
  (forall e,
     fst (generate_email_content env p cv w) = Raise e ->
     match
       chat_completions_create env (calls w)
         {| model := "gpt-3.5-turbo";
            prompt_name := name p;
            prompt_research_domain := research_domain p;
            prompt_university := university p;
            prompt_cv_highlights := substring 0 500 cv |}
     with
     | Raise e' => e = e'
     | Return No_content => e = TypeError
     | Return (Not_json _) => e = JSONDecodeError
     | Return (Json (JObject members)) =>
         ((forall v, ~ In ("subject", v) members) /\
          e = KeyError "subject") \/
         ((exists subject, last_member members "subject" subject) /\
          (forall v, ~ In ("body", v) members) /\
          e = KeyError "body")
     | Return (Json _) => e = TypeError
     end).
Proof.
  unfold generate_email_content, json_loads, subscript, bind, lift, emit,
    next_call, ret, raise.
  cbn [disk calls trace].
  destruct (chat_completions_create env (calls w) _)
    as [[| text | [| b | literal | text | items | members]] | e0];
    cbn [fst snd].
  1-7, 9:
    (split; [reflexivity |]; split;
     [intros subject body; split;
      [discriminate | intros [members' [Hreply _]]; discriminate]
     | intros e [= <-]; reflexivity]).
  destruct (dict_get members "subject") as [subject0 | e1] eqn:Hsubject.
  - destruct (dict_get members "body") as [body0 | e2] eqn:Hbody.
    + cbn [fst snd]. split; [reflexivity |]. split.
      * intros subject body. split.
        -- intros [= <- <-]. exists members.
           split; [reflexivity |]. split; apply dict_get_last; assumption.
        -- intros [members' [[= <-] [Hs Hb]]].
           apply dict_get_last in Hs, Hb. congruence.
      * discriminate.
    + cbn [fst snd]. split; [reflexivity |]. split.
      * intros subject body. split; [discriminate |].
        intros [members' [[= <-] [_ Hb]]].
        apply dict_get_last in Hb. congruence.
      * intros e [= <-]. right.
        split; [exists subject0; apply dict_get_last; exact Hsubject |].
        split; [exact (dict_get_absent _ _ _ Hbody) |].
        exact (dict_get_raise _ _ _ Hbody).
  - cbn [fst snd]. split; [reflexivity |]. split.
    + intros subject body. split; [discriminate |].
      intros [members' [[= <-] [Hs _]]].
      apply dict_get_last in Hs. congruence.
    + intros e [= <-]. left.
      split; [exact (dict_get_absent _ _ _ Hsubject) |].
      exact (dict_get_raise _ _ _ Hsubject).
Qed.

Lemma generate_email_content_outcomes_witness :
  fst (generate_email_content five_contacts Bob "%PDF-1.4" (boot NoDir)) =
    Return (JString "Summer internship", JString "Dear Professor") /\
  exists members,
    chat_completions_create five_contacts 0
      {| model := "gpt-3.5-turbo"; prompt_name := "Bob";
         prompt_research_domain := "graphs"; prompt_university := "MIT";
         prompt_cv_highlights := "%PDF-1.4" |} =
      Return (Json (JObject members)) /\
    last_member members "subject" (JString "Summer internship") /\
    last_member members "body" (JString "Dear Professor").
Proof.
  split; [reflexivity |].
  exact (proj1 (proj1 (proj2 (generate_email_content_outcomes
                                five_contacts Bob "%PDF-1.4" (boot NoDir)))
                  (JString "Summer internship") (JString "Dear Professor"))
           eq_refl).
Defined.



(** ** Attempts end in a confirmed send or in an error line *)

Lemma failures_app evs evs' :
  failures (evs ++ evs') = failures evs ++ failures evs'.
Proof.
  induction evs as [| ev evs IH]; [reflexivity |].
  destruct ev as [[] | | | | | | |]; simpl; rewrite IH; reflexivity.
Qed.

Lemma housekeeping_no_failures evs :
  Forall housekeeping evs -> failures evs = [].
Proof.
  induction 1 as [| ev evs Hev _ IH]; [reflexivity |].
  destruct ev as [[] | | | | | | |]; simpl in *; try contradiction; exact IH.
Qed.

Lemma housekeeping_no_message evs msg :
  Forall housekeeping evs -> ~ In (Smtp_send_message msg) evs.
Proof.
  intros H Hin. rewrite Forall_forall in H. exact (H _ Hin).
Qed.

Lemma attempt_failures env p cv delivered evs :
  attempt env p cv delivered evs ->
  failures evs = if delivered then [] else [name p].
Proof. intros H; destruct H; reflexivity. Qed.

Lemma window_run_failures env professors cv idx vars evs r :
  window_run env professors cv idx vars evs r ->
  List.length (attempted evs) =
  (List.length (deliveries evs) + List.length (failures evs))%nat.
Proof.
  intros H. window_induction H; try reflexivity; [exact IH |].
  destruct (attempt_counts _ _ _ _ _ Hatt) as [Hatt1 _].
  rewrite attempted_app, deliveries_app, failures_app, Hatt1,
    (attempt_deliveries _ _ _ _ _ Hatt), (attempt_failures _ _ _ _ _ Hatt).
  rewrite !length_app, IH. destruct delivered; cbn [List.length]; lia.
Qed.

Lemma window_run_messages env professors cv idx vars evs r msg :
  window_run env professors cv idx vars evs r ->
  In (Smtp_send_message msg) evs ->
  msg_From msg = EMAIL_USERNAME env /\
  exists q, In q (attempted evs) /\ msg_To msg = email q.
Proof.
  intros H. window_induction H; try (intros []; fail); [exact IH |].
  intros Hmsg. destruct (attempt_counts _ _ _ _ _ Hatt) as [Hatt1 _].
  rewrite attempted_app, Hatt1.
  apply in_app_or in Hmsg. destruct Hmsg as [Hmsg | Hmsg].
  - destruct Hatt; simpl in Hmsg;
      repeat (destruct Hmsg as [Heq | Hmsg]; [try discriminate |]);
      try contradiction;
      injection Heq as <-; (split; [reflexivity |]);
      exists p; (split; [left; reflexivity | reflexivity]).
  - destruct (IH Hmsg) as [Hfrom [q [Hq Hto]]]. split; [exact Hfrom |].
    exists q. split; [right; exact Hq | exact Hto].
Qed.

(** X15: every attempt of a run ends in exactly one of two ways: with
    [send_email] returning [True], or with an "Error sending email" line.
    The number of generator calls is the number of "Email sent to" lines
    plus the number of error lines.  An attempt whose message the server
    took before the session raised is among the error lines, so the
    messages the server took are at most the two numbers together. *)
Theorem attempts_confirm_or_report quota env d :
  len (attempted (run_trace quota d env)) =
    len (deliveries (run_trace quota d env)) +
    len (failures (run_trace quota d env)) /\
  len (accepted (run_trace quota d env)) <=
    len (deliveries (run_trace quota d env)) +
    len (failures (run_trace quota d env)).
Proof.
  assert (Hcount :
    len (attempted (run_trace quota d env)) =
    len (deliveries (run_trace quota d env)) +
    len (failures (run_trace quota d env))).
  { destruct (run_trace_shape quota env d)
      as [pre [evs [post [-> [Hpre [Hpost Hevs]]]]]].
    destruct (loop_part pre evs post Hpre Hpost) as [-> [-> _]].
    rewrite !failures_app, (housekeeping_no_failures pre Hpre),
      (housekeeping_no_failures post Hpost), app_nil_r. cbn [app].
    destruct Hevs as [-> | [professors [st [r [_ [_ Hrun]]]]]]; [reflexivity |].
    unfold len. rewrite (window_run_failures _ _ _ _ _ _ _ Hrun). lia. }
  split; [exact Hcount |].
  rewrite <- Hcount. apply run_accepted_bounds.
Qed.

(** X16: every message a run hands to the mail server is from
    [EMAIL_USERNAME] and goes to the address of a contact the run called
    the generator for. *)
Theorem messages_follow_generation quota env d msg :
  In (Smtp_send_message msg) (run_trace quota d env) ->
  msg_From msg = EMAIL_USERNAME env /\
  exists q, In q (attempted (run_trace quota d env)) /\ msg_To msg = email q.
Proof.
  destruct (run_trace_shape quota env d)
    as [pre [evs [post [-> [Hpre [Hpost Hevs]]]]]].
  destruct (loop_part pre evs post Hpre Hpost) as [_ [-> _]].
  intros Hin. apply in_app_or in Hin. destruct Hin as [Hin | Hin].
  { destruct (housekeeping_no_message pre msg Hpre Hin). }
  apply in_app_or in Hin. destruct Hin as [Hin | Hin].
  2:{ destruct (housekeeping_no_message post msg Hpost Hin). }
  destruct Hevs as [-> | [professors [st [r [_ [_ Hrun]]]]]]; [destruct Hin |].
  exact (window_run_messages _ _ _ _ _ _ _ msg Hrun Hin).
Qed.

Lemma messages_follow_generation_witness :
  In (Smtp_send_message
        {| msg_From := "me@example.org"; msg_To := "ada@u.edu";
           msg_Subject := JString "Summer internship";
           msg_body := "Dear Professor"; msg_attachment := "%PDF-1.4" |})
     (run_trace 3 NoDir second_generation_fails) /\
  exists q,
    In q (attempted (run_trace 3 NoDir second_generation_fails)) /\
    "ada@u.edu" = email q.
Proof.
  assert (H : In (Smtp_send_message
                    {| msg_From := "me@example.org"; msg_To := "ada@u.edu";
                       msg_Subject := JString "Summer internship";
                       msg_body := "Dear Professor";
                       msg_attachment := "%PDF-1.4" |})
                 (run_trace 3 NoDir second_generation_fails)).
  { vm_compute. do 3 right. left. reflexivity. }
  split; [exact H |].
  exact (proj2 (messages_follow_generation 3 second_generation_fails NoDir _ H)).
Defined.

(** ** The window never goes back *)




(** ** Messages the server took in a session that raised *)

(** X18: in a run [send_email] returns [True] at most as often as the mail
    server takes a message, and the server takes at most one message for
    each call of the generator; without the CV file it takes none. *)
Theorem accepted_messages_of_a_run quota env d :
  len (deliveries (run_trace quota d env)) <=
    len (accepted (run_trace quota d env)) /\
  len (accepted (run_trace quota d env)) <=
    len (attempted (run_trace quota d env)) /\
  (cv_file env = None -> accepted (run_trace quota d env) = []).
Proof.
  destruct (run_accepted_bounds quota env d) as [Hconfirmed Htaken].
  split; [exact Hconfirmed |]. split; [exact Htaken |].
  apply run_without_cv.
Qed.

Lemma accepted_messages_of_a_run_witness :
  cv_file cv_missing = None /\
  len (attempted (run_trace 3 NoDir cv_missing)) = 3 /\
  accepted (run_trace 3 NoDir cv_missing) = [].
Proof.
  split; [reflexivity |]. split; [reflexivity |].
  exact (proj2 (proj2 (accepted_messages_of_a_run 3 cv_missing NoDir)) eq_refl).
Defined.

(** X19: when the mail server has taken the message and leaving the
    [with smtplib.SMTP] block then raises, the iteration ends in the
    [except] branch: it prints the error line and leaves [sent_emails] and
    [emails_sent] as they were, without a pause.  The address stays out of
    [sent_emails] although its message is on its way. *)
Theorem unconfirmed_message_is_not_recorded
    env professors cv sent n i p subject text attachment e w w1 :
  getitem professors i = Return p ->
  py_in (email p) sent = false ->
  generate_email_content env p cv w = (Return (subject, JString text), w1) ->
  cv_file env = Some attachment ->
  smtp_session env (calls w1)
    {| msg_From := EMAIL_USERNAME env; msg_To := email p;
       msg_Subject := subject; msg_body := text;
       msg_attachment := attachment |} = Sent_quit_failed e ->
  loop_body env professors cv (sent, n) i w =
    (Return (sent, n),
     {| disk := disk w1; calls := S (calls w1);
        trace :=
          trace w1 ++
          [Call_send_email p subject (JString text);
           Smtp_send_message
             {| msg_From := EMAIL_USERNAME env; msg_To := email p;
                msg_Subject := subject; msg_body := text;
                msg_attachment := attachment |};
           Stdout (Error_sending_email_to (name p) e)] |}).
Proof.
  intros Hget Hnew Hgen Hcv Hsmtp.
  unfold loop_body, bind at 1, lift. rewrite Hget, Hnew.
  unfold try_except, bind at 1. rewrite Hgen.
  unfold send_email, smtp_with_block, print, bind, emit, next_call.
  cbn [MIMEText ret raise disk calls trace fst snd].
  rewrite Hcv. cbn [ret raise disk calls trace fst snd].
  rewrite Hsmtp. cbn [ret raise disk calls trace fst snd].
  rewrite <- !app_assoc. reflexivity.
Qed.

Lemma unconfirmed_message_is_not_recorded_witness :
  fetched first_quit_fails =
    Return [Ada; {| name := "A. L."; research_domain := "logic";
                    email := "ada@u.edu"; university := "Unknown" |}] /\
  fst (loop_body first_quit_fails
         [Ada; {| name := "A. L."; research_domain := "logic";
                  email := "ada@u.edu"; university := "Unknown" |}]
         "%PDF-1.4" ([], 0) 0 (boot NoDir)) = Return ([], 0).
Proof.
  split; [reflexivity |].
  exact (f_equal fst
           (unconfirmed_message_is_not_recorded first_quit_fails
              [Ada; {| name := "A. L."; research_domain := "logic";
                       email := "ada@u.edu"; university := "Unknown" |}]
              "%PDF-1.4" [] 0 0 Ada
              (JString "Summer internship") "Dear Professor" "%PDF-1.4"
              (SMTPException "QUIT answered 421") (boot NoDir)
              {| disk := NoDir; calls := 1;
                 trace := [Call_generate_email_content Ada "%PDF-1.4"] |}
              eq_refl eq_refl eq_refl eq_refl eq_refl)).
Defined.

(** X20: the test against [sent_emails] does not keep the mail server from
    taking two messages for one address in a run.  With the same address in
    two rows and the first session raising after the server took the
    message, the run hands the server a message for that address at both
    positions; it prints one error line, counts one email and records the
    address once. *)
Example same_address_is_taken_twice :
  accepted (run_trace EMAILS_PER_DAY NoDir first_quit_fails) =
    ["ada@u.edu"; "ada@u.edu"] /\
  deliveries (run_trace EMAILS_PER_DAY NoDir first_quit_fails) = ["ada@u.edu"] /\
  failures (run_trace EMAILS_PER_DAY NoDir first_quit_fails) = ["Ada"] /\
  sleeps (run_trace EMAILS_PER_DAY NoDir first_quit_fails) = [30] /\
  run_result EMAILS_PER_DAY NoDir first_quit_fails = Return tt /\
  persisted (run EMAILS_PER_DAY NoDir first_quit_fails) =
    Return {| last_index := 2; sent_emails := ["ada@u.edu"] |}.
Proof. vm_compute. repeat split. Qed.
